(** * pine/vm/vm.py: the evaluation core of the Pine interpreter

    A shallow embedding of [VM], [InputScanner] and [RenderVM].  Python
    objects become a tagged [Value]; a method of the machine becomes a
    function from the machine's state to an outcome (a value or a raised
    exception) paired with the state it leaves behind, so that the mutations
    done before an exception stay visible, as they do in Python. *)

From Stdlib Require Import ZArith Ascii String List Floats.
From stdpp Require Import gmap strings list pretty.

Set Warnings "-register-all,-inexact-float".
Local Open Scope string_scope.
Local Open Scope list_scope.

(** ** Values *)

(** The objects a script manipulates.  [VSeries] is a [helper.Series],
    [VBuiltinSeries] its subclass [helper.BuiltinSeries] with its [varname];
    [VDict] is a Python [dict] in insertion order (the draw commands),
    [VList] a Python [list] (the options of an input);
    [VFunction] is a host function object stored in a scope (an accessor of
    [builtin_variable]). *)
Inductive Value : Type :=
  | VNone
  | VBool (b : bool)
  | VInt (z : Z)
  | VFloat (f : float)
  | VStr (s : string)
  | VSeries (samples : list Value)
  | VBuiltinSeries (varname : string) (samples : list Value)
  | VDict (items : list (string * Value))
  | VList (elems : list Value)
  | VFunction (id : nat).

(** [type(v)]. *)
Inductive Kind : Type :=
  | KNoneType | KBool | KInt | KFloat | KStr
  | KSeries | KBuiltinSeries | KDict | KList | KFunctionType.

#[global] Instance Kind_eq_dec : EqDecision Kind.
Proof. solve_decision. Defined.

Definition type_of (v : Value) : Kind :=
  match v with
  | VNone => KNoneType
  | VBool _ => KBool
  | VInt _ => KInt
  | VFloat _ => KFloat
  | VStr _ => KStr
  | VSeries _ => KSeries
  | VBuiltinSeries _ _ => KBuiltinSeries
  | VDict _ => KDict
  | VList _ => KList
  | VFunction _ => KFunctionType
  end.

(** [isinstance(v, Series)]: true of [Series] and of every subclass. *)
Definition is_series (v : Value) : bool :=
  match v with
  | VSeries _ | VBuiltinSeries _ _ => true
  | _ => false
  end.

(** [isinstance(v, BuiltinSeries)]. *)
Definition is_builtin_series (v : Value) : bool :=
  match v with
  | VBuiltinSeries _ _ => true
  | _ => false
  end.

(** [isfunction(v)]. *)
Definition isfunction (v : Value) : bool :=
  match v with
  | VFunction _ => true
  | _ => false
  end.

(** ** Exceptions *)

(** The messages [PineError] is raised with in this file, one constructor
    per format string, holding the formatted arguments. *)
Inductive PineErrorMsg : Type :=
  | InvalidTypeToAssign (name : string) (value old : Value)
  | VariableNotFoundToAssign (name : string)
  | VariableNotImplemented (name : string)
  | VariableNotFound (name : Value)
  | FunctionNotFound (fname : string)
  | ArgumentError (e : string) (fname : string)
  | FunctionNotImplemented (fname : string)
  | MissingArgument (name : string).

Inductive Exc : Type :=
  | PineError (msg : PineErrorMsg)
  | PineArgumentError (e : string)
  | NotImplementedError
  | KeyError (key : string)
  | IndexError
  | TypeError
  | ValueError
  | OverflowError
  | OtherError (what : string).

Inductive Result (A : Type) : Type :=
  | Ok (a : A)
  | Raise (e : Exc).
Arguments Ok {A} a.
Arguments Raise {A} e.

(** ** Stateful computations that may raise *)

Definition M (S A : Type) : Type := S -> Result A * S.

Definition ret {S A} (a : A) : M S A := fun s => (Ok a, s).
Definition raise {S A} (e : Exc) : M S A := fun s => (Raise e, s).
Definition bind {S A B} (c : M S A) (k : A -> M S B) : M S B :=
  fun s =>
    match c s with
    | (Ok a, s') => k a s'
    | (Raise e, s') => (Raise e, s')
    end.
Definition lift {S A} (r : Result A) : M S A := fun s => (r, s).

Notation "'let!' x ':=' c 'in' k" := (bind c (fun x => k))
  (at level 10, x name, c at level 100, k at level 200).
Notation "c ;;; k" := (bind c (fun _ => k))
  (at level 100, k at level 200, right associativity).

(** [try: body finally: fin].  [fin] runs on the state [body] leaves,
    whether [body] returned or raised; an exception of [fin] replaces the
    pending outcome. *)
Definition try_finally {S A} (body : M S A) (fin : M S unit) : M S A :=
  fun s =>
    match body s with
    | (r, s1) =>
        match fin s1 with
        | (Ok _, s2) => (r, s2)
        | (Raise e, s2) => (Raise e, s2)
        end
    end.

(** [for x in xs: f(x)]. *)
Fixpoint for_each {S A} (xs : list A) (f : A -> M S unit) : M S unit :=
  match xs with
  | [] => ret tt
  | x :: xs' => f x ;;; for_each xs' f
  end.

(** [zip(xs, ys)]: stops at the shorter of the two. *)
Fixpoint zip {A B} (xs : list A) (ys : list B) : list (A * B) :=
  match xs, ys with
  | x :: xs', y :: ys' => (x, y) :: zip xs' ys'
  | _, _ => []
  end.

(** ** class VM *)

Section VM.

(** A syntax-tree node is known to the machine by its [eval] method only,
    and the market is passed through untouched. *)
Context {Node Market Ext : Type}.

(** An entry of [function_table]: a host function or bound method, or the
    pair [(args, node)] of [register_function]. *)
Inductive FuncEntry : Type :=
  | HostFunc (id : string)
  | UserFunc (arg_ids : list string) (node : Node).

(** The fields of a [VM]; [ext] holds the fields a subclass adds. *)
Record VM : Type := mkVM {
  function_table : gmap string FuncEntry;
  variable_tables : list (gmap string Value);
  market : Market;
  title : string;
  ext : Ext
}.

Definition set_variable_tables (ts : list (gmap string Value)) (vm : VM) : VM :=
  mkVM (function_table vm) ts (market vm) (title vm) (ext vm).

Definition set_function_table (ft : gmap string FuncEntry) (vm : VM) : VM :=
  mkVM ft (variable_tables vm) (market vm) (title vm) (ext vm).

Definition set_ext (x : Ext) (vm : VM) : VM :=
  mkVM (function_table vm) (variable_tables vm) (market vm) (title vm) x.

(** [__init__], given the tables that [_load_builtins] fills from
    [builtin_function] and [builtin_variable]: one scope, the global one. *)
Definition init (functions : gmap string FuncEntry) (globals : gmap string Value)
    (mkt : Market) (x : Ext) : VM :=
  mkVM functions [globals] mkt "No Title" x.

(** The depth of the scope stack. *)
Definition depth (vm : VM) : nat := length (variable_tables vm).

(** [node.eval(self)], [func(self, args, kwargs)] for a host function and
    [v(self)] for an accessor stored in a scope. *)
Variable eval : Node -> M VM Value.
Variable host_call : string -> list Value -> list (string * Value) -> M VM Value.
Variable accessor : nat -> M VM Value.

Definition register_function (name : string) (args : list string) (node : Node)
  : M VM unit :=
  fun vm => (Ok tt, set_function_table (<[name := UserFunc args node]> (function_table vm)) vm).

(** [self.variable_tables[-1][name] = value]; the index fails on an empty
    stack. *)
Definition define_variable (name : string) (value : Value) : M VM unit :=
  fun vm =>
    match rev (variable_tables vm) with
    | [] => (Raise IndexError, vm)
    | t :: outer => (Ok tt, set_variable_tables (rev (<[name := value]> t :: outer)) vm)
    end.

(** The test of [assign_variable] on the bound value [v] and the new
    [value]. *)
Definition compat (v value : Value) : bool :=
  if is_series v then is_series value
  else bool_decide (type_of v = type_of value).

(** The loop of [assign_variable] over [reversed(self.variable_tables)]:
    [ts] is the stack innermost first.  [None] when the loop ends without
    finding [name]; otherwise the outcome and the stack, innermost first. *)
Fixpoint assign_loop (name : string) (value : Value) (ts : list (gmap string Value))
  : option (Result Value * list (gmap string Value)) :=
  match ts with
  | [] => None
  | t :: outer =>
      match t !! name with
      | Some v =>
          if compat v value
          then Some (Ok value, <[name := value]> t :: outer)
          else Some (Raise (PineError (InvalidTypeToAssign name value v)), t :: outer)
      | None =>
          match assign_loop name value outer with
          | Some (r, outer') => Some (r, t :: outer')
          | None => None
          end
      end
  end.

Definition assign_variable (name : string) (value : Value) : M VM Value :=
  fun vm =>
    match assign_loop name value (rev (variable_tables vm)) with
    | Some (r, ts) => (r, set_variable_tables (rev ts) vm)
    | None => (Raise (PineError (VariableNotFoundToAssign name)), vm)
    end.

(** The first binding of [name], searching [ts] from its head. *)
Fixpoint find_binding (name : string) (ts : list (gmap string Value)) : option Value :=
  match ts with
  | [] => None
  | t :: outer =>
      match t !! name with
      | Some v => Some v
      | None => find_binding name outer
      end
  end.

Definition lookup_variable (name : string) : M VM Value :=
  fun vm =>
    match find_binding name (rev (variable_tables vm)) with
    | Some v =>
        if isfunction v then
          match v with
          | VFunction id =>
              match accessor id vm with
              | (Raise NotImplementedError, vm') =>
                  (Raise (PineError (VariableNotImplemented name)), vm')
              | out => out
              end
          | _ => (Ok v, vm)
          end
        else (Ok v, vm)
    | None => (Raise (PineError (VariableNotFound (VStr name))), vm)
    end.

Definition push_scope : M VM unit :=
  fun vm => (Ok tt, set_variable_tables (variable_tables vm ++ [∅]) vm).

(** [self.variable_tables.pop(-1)]. *)
Definition pop_scope : M VM unit :=
  fun vm =>
    match rev (variable_tables vm) with
    | [] => (Raise IndexError, vm)
    | _ :: outer => (Ok tt, set_variable_tables (rev outer) vm)
    end.

(** [n not in self.variable_tables[-1]], for each formal in turn. *)
Definition check_argument (n : string) : M VM unit :=
  fun vm =>
    match rev (variable_tables vm) with
    | [] => (Raise IndexError, vm)
    | t :: _ =>
        match t !! n with
        | Some _ => (Ok tt, vm)
        | None => (Raise (PineError (MissingArgument n)), vm)
        end
    end.

(** An empty list or dict is false, so its loop is skipped; the loop over
    an empty one does nothing either. *)
Definition _set_func_arguments (names : list string) (args : list Value)
    (kwargs : list (string * Value)) : M VM unit :=
  for_each (zip names args) (fun na => define_variable na.1 na.2) ;;;
  for_each kwargs (fun ka => define_variable ka.1 ka.2) ;;;
  for_each names check_argument.

Definition func_call (fname : string) (args : list Value)
    (kwargs : list (string * Value)) : M VM Value :=
  fun vm =>
    match function_table vm !! fname with
    | None => (Raise (PineError (FunctionNotFound fname)), vm)
    | Some (HostFunc id) =>
        match host_call id args kwargs vm with
        | (Raise (PineArgumentError e), vm') =>
            (Raise (PineError (ArgumentError e fname)), vm')
        | (Raise NotImplementedError, vm') =>
            (Raise (PineError (FunctionNotImplemented fname)), vm')
        | out => out
        end
    | Some (UserFunc arg_ids node) =>
        try_finally
          (push_scope ;;; _set_func_arguments arg_ids args kwargs ;;; eval node)
          pop_scope vm
    end.

(** [eval_node] returns [None]. *)
Definition eval_node (node : Node) : M VM Value :=
  push_scope ;;;
  try_finally (eval node ;;; ret VNone) pop_scope.

End VM.

Arguments VM : clear implicits.
Arguments FuncEntry : clear implicits.

(** ** Kinds, balance and argument binding *)

(** The kinds of time series: [Series] and its subclasses. *)
Definition series_kind (k : Kind) : bool :=
  match k with
  | KSeries | KBuiltinSeries => true
  | _ => false
  end.

(** A value of kind [k2] may replace one of kind [k1]. *)
Definition kinds_compatible (k1 k2 : Kind) : Prop :=
  k2 = k1 \/ (series_kind k1 = true /\ series_kind k2 = true).

(** A computation that leaves the scope stack as deep as it found it,
    whether it returns or raises. *)
Definition balanced {Node Market Ext A} (c : M (VM Node Market Ext) A) : Prop :=
  forall vm, depth (c vm).2 = depth vm.

(** The scope [t] after [define_variable] of each pair of [kvs] in turn. *)
Definition bound_scope (t : gmap string Value) (kvs : list (string * Value))
  : gmap string Value :=
  fold_left (fun t kv => <[kv.1 := kv.2]> t) kvs t.

(** [n not in t]. *)
Definition missing (t : gmap string Value) (n : string) : bool :=
  match t !! n with
  | Some _ => false
  | None => true
  end.

(** ** Conversions of the host language *)

(** [float(z)] for an integer: the nearest double, ties to even; an integer
    beyond the range of doubles raises OverflowError. *)
Definition float_of_int (z : Z) : Result float :=
  match binary_normalize prec emax z 0 false with
  | S754_infinity _ => Raise OverflowError
  | sf => Ok (SF2Prim sf)
  end.

(** [int(f)] for a float: truncation towards zero. *)
Definition int_of_float (f : float) : Result Z :=
  match Prim2SF f with
  | S754_nan => Raise ValueError
  | S754_infinity _ => Raise OverflowError
  | S754_zero _ => Ok 0%Z
  | S754_finite s m e =>
      let mag := Z.shiftl (Z.pos m) e in
      Ok (if s then (- mag)%Z else mag)
  end.

(** What [bool], [int] and [float] do on a string and on a series is the
    host's and [helper]'s business; the machine only calls them. *)
Record Conversions : Type := {
  str_to_int : string -> Result Z;
  str_to_float : string -> Result float;
  series_to_bool : Value -> Result bool;
  series_to_int : Value -> Result Z;
  series_to_float : Value -> Result float
}.

Section Coercions.

Variable conv : Conversions.

(** [bool(v)], also the test of [if v:] and [if not v:]. *)
Definition py_bool (v : Value) : Result bool :=
  match v with
  | VNone => Ok false
  | VBool b => Ok b
  | VInt z => Ok (negb (z =? 0)%Z)
  | VFloat f => Ok (negb (PrimFloat.eqb f 0%float))
  | VStr s => Ok (negb (bool_decide (s = "")))
  | VDict items => Ok (negb (bool_decide (length items = 0%nat)))
  | VList elems => Ok (negb (bool_decide (length elems = 0%nat)))
  | VFunction _ => Ok true
  | VSeries _ | VBuiltinSeries _ _ => series_to_bool conv v
  end.

(** [int(v)]. *)
Definition py_int (v : Value) : Result Z :=
  match v with
  | VBool b => Ok (if b then 1 else 0)%Z
  | VInt z => Ok z
  | VFloat f => int_of_float f
  | VStr s => str_to_int conv s
  | VSeries _ | VBuiltinSeries _ _ => series_to_int conv v
  | VNone | VDict _ | VList _ | VFunction _ => Raise TypeError
  end.

(** [float(v)]. *)
Definition py_float (v : Value) : Result float :=
  match v with
  | VBool b => Ok (if b then 1%float else 0%float)
  | VInt z => float_of_int z
  | VFloat f => Ok f
  | VStr s => str_to_float conv s
  | VSeries _ | VBuiltinSeries _ _ => series_to_float conv v
  | VNone | VDict _ | VList _ | VFunction _ => Raise TypeError
  end.

End Coercions.

(** [if not s:] for an optional string: None and the empty string. *)
Definition not_str (s : option string) : bool :=
  match s with
  | None => true
  | Some s => bool_decide (s = "")
  end.

(** ["input{}".format(n)]. *)
Definition auto_title (n : nat) : string := "input" +:+ pretty n.

(** The tuple [_parse_input_args] returns.  The title and the type are
    strings when given. *)
Record InputArgs : Type := {
  arg_defval : Value;
  arg_title : option string;
  arg_typ : option string;
  arg_minval : Value;
  arg_maxval : Value;
  arg_confirm : Value;
  arg_step : Value;
  arg_options : Value
}.

(** ** class InputScanner *)

Module InputScanner.

(** The dict appended to [self.inputs]. *)
Record Descriptor : Type := {
  d_defval : Value;
  d_title : string;
  d_type : string;
  d_minval : Value;
  d_maxval : Value;
  d_options : Value
}.

Section Scanner.

Context {Node Market : Type}.

(** [self.inputs]. *)
Abbreviation Scanner := (VM Node Market (list Descriptor)).

(** [builtin_function._parse_input_args], which is not part of this
    file. *)
Variable _parse_input_args :
  list Value -> list (string * Value) -> Result InputArgs.

(** [__init__]: the machine [vm0] that [VM.__init__] built, with the
    method registered and no input yet. *)
Definition init (vm0 : VM Node Market unit) : Scanner :=
  mkVM (<["input" := HostFunc "InputScanner.input"]> (function_table vm0))
       (variable_tables vm0) (market vm0) (title vm0) [].

(** The type and the recorded default when no type is given. *)
Definition infer (defval : Value) : string * Value :=
  match defval with
  | VBool _ => ("bool", defval)
  | VInt _ => ("integer", defval)
  | VFloat _ => ("float", defval)
  | VBuiltinSeries varname _ => ("source", VStr varname)
  | _ => ("string", defval)
  end.

(** The descriptor [input] builds from the parsed arguments when
    [self.inputs] is [inputs]. *)
Definition descriptor (inputs : list Descriptor) (a : InputArgs) : Descriptor :=
  let '(typ, defval_) :=
    match arg_typ a with
    | None => infer (arg_defval a)
    | Some typ => (typ, arg_defval a)
    end in
  let title :=
    if not_str (arg_title a) then auto_title (length inputs + 1)
    else default "" (arg_title a) in
  {| d_defval := defval_; d_title := title; d_type := typ;
     d_minval := arg_minval a; d_maxval := arg_maxval a;
     d_options := arg_options a |}.

Definition input (args : list Value) (kwargs : list (string * Value))
  : M Scanner Value :=
  fun self =>
    match _parse_input_args args kwargs with
    | Raise e => (Raise e, self)
    | Ok a =>
        (Ok (arg_defval a), set_ext (ext self ++ [descriptor (ext self) a]) self)
    end.

Definition eval_node (eval : Node -> M Scanner Value) (node : Node) : M Scanner Value :=
  eval_node eval node.

End Scanner.

End InputScanner.

(** ** Python dicts in insertion order *)

Fixpoint dict_get (k : string) (d : list (string * Value)) : option Value :=
  match d with
  | [] => None
  | (k', v) :: d' => if bool_decide (k' = k) then Some v else dict_get k d'
  end.

(** [d[k] = v]: the value is replaced where the key is, a new key goes last. *)
Fixpoint dict_set (k : string) (v : Value) (d : list (string * Value))
  : list (string * Value) :=
  match d with
  | [] => [(k, v)]
  | (k', v') :: d' =>
      if bool_decide (k' = k) then (k, v) :: d' else (k', v') :: dict_set k v d'
  end.

(** [if z:] for an optional integer. *)
Definition truthy_int (o : option Z) : bool :=
  match o with
  | Some z => negb (z =? 0)%Z
  | None => false
  end.

Definition opt_str_value (o : option string) : Value :=
  match o with
  | Some s => VStr s
  | None => VNone
  end.

(** [color[-1]] when [color] is a series, [color] itself otherwise. *)
Definition resolve_color (color : Value) : Result Value :=
  match color with
  | VSeries samples | VBuiltinSeries _ samples =>
      match last samples with
      | Some c => Ok c
      | None => Raise IndexError
      end
  | _ => Ok color
  end.

(** [transp * 0.01]. *)
Definition alpha_of (transp : Z) : Result Value :=
  match float_of_int transp with
  | Ok f => Ok (VFloat (PrimFloat.mul f 0.01%float))
  | Raise e => Raise e
  end.

(** What [_expand_args] returns for the argument table of [plot]: each
    argument has the type its table entry names, a missing optional one is
    None. *)
Record PlotArgs : Type := {
  p_series : Value;
  p_title : string;
  p_color : Value;
  p_linewidth : option Z;
  p_style : option Z;
  p_trackprice : option bool;
  p_transp : option Z;
  p_histbase : option float;
  p_offset : option Z;
  p_join : option bool;
  p_editable : option bool;
  p_show_last : option Z
}.

(** For the table of [hline]. *)
Record HlineArgs : Type := {
  h_price : float;
  h_title : option string;
  h_color : option string;
  h_linestyle : option Z;
  h_linewidth : option Z;
  h_editable : option bool
}.

(** For the table of [fill]; [series1] and [series2] are dicts. *)
Record FillArgs : Type := {
  f_series1 : list (string * Value);
  f_series2 : list (string * Value);
  f_color : option string;
  f_transp : option Z;
  f_title : option string;
  f_editable : option bool;
  f_show_last : option bool
}.

(** The style constants of [builtin_variable]. *)
Record Styles : Type := {
  STYLE_LINE : Z;
  STYLE_STEPLINE : Z;
  STYLE_HISTOGRAM : Z;
  STYLE_CROSS : Z;
  STYLE_AREA : Z;
  STYLE_COLUMNS : Z;
  STYLE_CIRCLES : Z
}.

(** ** class RenderVM *)

Module RenderVM.

(** The fields [RenderVM] adds. *)
Record Render : Type := {
  inputs : gmap string Value;
  plots : list Value;
  input_idx : nat
}.

Section Renderer.

Context {Node Market : Type}.
Abbreviation Renderer := (VM Node Market Render).

Variable conv : Conversions.
Variable styles : Styles.
Variable accessor : nat -> M Renderer Value.

(** [builtin_function._parse_input_args] and [_expand_args] applied to
    the argument table of each drawing call; neither is part of this
    file. *)
Variable _parse_input_args :
  list Value -> list (string * Value) -> Result InputArgs.
Variable expand_plot_args : list Value -> list (string * Value) -> Result PlotArgs.
Variable expand_hline_args : list Value -> list (string * Value) -> Result HlineArgs.
Variable expand_fill_args : list Value -> list (string * Value) -> Result FillArgs.

Definition init (vm0 : VM Node Market unit) (stored : gmap string Value) : Renderer :=
  mkVM (<["fill" := HostFunc "RenderVM.fill"]>
          (<["hline" := HostFunc "RenderVM.hline"]>
             (<["plot" := HostFunc "RenderVM.plot"]>
                (<["input" := HostFunc "RenderVM.input"]> (function_table vm0)))))
       (variable_tables vm0) (market vm0) (title vm0)
       {| inputs := stored; plots := []; input_idx := 0 |}.

Definition set_input_idx (n : nat) (self : Renderer) : Renderer :=
  set_ext {| inputs := inputs (ext self); plots := plots (ext self); input_idx := n |} self.

Definition append_plot (plot : Value) (self : Renderer) : Renderer :=
  set_ext {| inputs := inputs (ext self); plots := plots (ext self) ++ [plot];
             input_idx := input_idx (ext self) |} self.

(** The type used when [not typ]: inferred from the default where it is
    a bool, an int, a float or a market series, and left as it is
    otherwise. *)
Definition infer (typ : option string) (defval : Value) : option string :=
  match defval with
  | VBool _ => Some "bool"
  | VInt _ => Some "integer"
  | VFloat _ => Some "float"
  | VBuiltinSeries _ _ => Some "source"
  | _ => typ
  end.

Definition render_type (a : InputArgs) : option string :=
  if not_str (arg_typ a) then infer (arg_typ a) (arg_defval a) else arg_typ a.

(** [self.lookup_variable(val)] on a stored value.  The scopes are keyed
    by strings, so no other key is found in them; a series, a dict or a
    list has no hash, and the first membership test raises. *)
Definition lookup_stored (val : Value) : M Renderer Value :=
  match val with
  | VStr name => lookup_variable accessor name
  | VSeries _ | VBuiltinSeries _ _ | VDict _ | VList _ =>
      fun self =>
        match variable_tables self with
        | [] => (Raise (PineError (VariableNotFound val)), self)
        | _ => (Raise TypeError, self)
        end
  | _ => raise (PineError (VariableNotFound val))
  end.

(** The chain of tests on [typ] that ends [input]. *)
Definition coerce (typ : option string) (val : Value) : M Renderer Value :=
  if bool_decide (typ = Some "bool") then
    lift (match py_bool conv val with Ok b => Ok (VBool b) | Raise e => Raise e end)
  else if bool_decide (typ = Some "integer") then
    lift (match py_int conv val with Ok z => Ok (VInt z) | Raise e => Raise e end)
  else if bool_decide (typ = Some "float") then
    lift (match py_float conv val with Ok f => Ok (VFloat f) | Raise e => Raise e end)
  else if bool_decide (typ = Some "source") then
    lookup_stored val
  else ret val.

(** The title of a call when [self.input_idx] has become [idx]. *)
Definition input_title (idx : nat) (a : InputArgs) : string :=
  if not_str (arg_title a) then auto_title idx else default "" (arg_title a).

Definition input (args : list Value) (kwargs : list (string * Value))
  : M Renderer Value :=
  fun self =>
    match _parse_input_args args kwargs with
    | Raise e => (Raise e, self)
    | Ok a =>
        let self1 := set_input_idx (input_idx (ext self) + 1) self in
        let title := input_title (input_idx (ext self1)) a in
        match inputs (ext self1) !! title with
        | None => (Raise (KeyError title), self1)
        | Some val => coerce (render_type a) val self1
        end
    end.

(** The chain of tests on [style]: the type and the mark, if any. *)
Definition style_type (style : Z) : string * option string :=
  if (style =? STYLE_LINE styles)%Z then ("line", None)
  else if (style =? STYLE_STEPLINE styles)%Z then ("line", None)
  else if (style =? STYLE_HISTOGRAM styles)%Z then ("bar", None)
  else if (style =? STYLE_CROSS styles)%Z then ("marker", Some "+")
  else if (style =? STYLE_AREA styles)%Z then ("band", None)
  else if (style =? STYLE_COLUMNS styles)%Z then ("bar", None)
  else if (style =? STYLE_CIRCLES styles)%Z then ("marker", Some "o")
  else ("line", None).

Definition with_style (style : option Z) (plot : list (string * Value))
  : list (string * Value) :=
  match style with
  | Some z =>
      if truthy_int style then
        let '(typ, mark) := style_type z in
        dict_set "type" (VStr typ)
          (match mark with
           | Some m => dict_set "mark" (VStr m) plot
           | None => plot
           end)
      else plot
  | None => plot
  end.

(** [if color is not None: ...]. *)
Definition with_color (color : Value) (plot : list (string * Value))
  : Result (list (string * Value)) :=
  match color with
  | VNone => Ok plot
  | _ =>
      match resolve_color color with
      | Ok c => Ok (dict_set "color" c plot)
      | Raise e => Raise e
      end
  end.

Definition with_width (linewidth : option Z) (plot : list (string * Value))
  : list (string * Value) :=
  match linewidth with
  | Some z => if truthy_int linewidth then dict_set "width" (VInt z) plot else plot
  | None => plot
  end.

Definition with_alpha (transp : option Z) (plot : list (string * Value))
  : Result (list (string * Value)) :=
  match transp with
  | Some z =>
      if truthy_int transp then
        match alpha_of z with
        | Ok a => Ok (dict_set "alpha" a plot)
        | Raise e => Raise e
        end
      else Ok plot
  | None => Ok plot
  end.

(** The dict [plot] builds before appending it. *)
Definition plot_command (a : PlotArgs) : Result (list (string * Value)) :=
  let plot := [("title", VStr (p_title a)); ("series", p_series a)] in
  let plot := with_style (p_style a) plot in
  match with_color (p_color a) plot with
  | Raise e => Raise e
  | Ok plot => with_alpha (p_transp a) (with_width (p_linewidth a) plot)
  end.

Definition plot (args : list Value) (kwargs : list (string * Value))
  : M Renderer Value :=
  fun self =>
    match expand_plot_args args kwargs with
    | Raise e => (Raise e, self)
    | Ok a =>
        match plot_command a with
        | Raise e => (Raise e, self)
        | Ok plot => (Ok (VDict plot), append_plot (VDict plot) self)
        end
    end.

Definition hline_command (a : HlineArgs) : list (string * Value) :=
  let plot := [("title", opt_str_value (h_title a)); ("series", VFloat (h_price a));
               ("type", VStr "hline")] in
  let plot :=
    match h_color a with
    | Some c => if not_str (h_color a) then plot else dict_set "color" (VStr c) plot
    | None => plot
    end in
  with_width (h_linewidth a) plot.

Definition hline (args : list Value) (kwargs : list (string * Value))
  : M Renderer Value :=
  fun self =>
    match expand_hline_args args kwargs with
    | Raise e => (Raise e, self)
    | Ok a =>
        let plot := hline_command a in
        (Ok (VDict plot), append_plot (VDict plot) self)
    end.

(** [s1['series']] and [s2['series']] raise KeyError on a dict without
    that key. *)
Definition fill_command (a : FillArgs) : Result (list (string * Value)) :=
  match dict_get "series" (f_series1 a) with
  | None => Raise (KeyError "series")
  | Some s1 =>
      match dict_get "series" (f_series2 a) with
      | None => Raise (KeyError "series")
      | Some s2 =>
          let plot := [("title", opt_str_value (f_title a)); ("series", s1);
                       ("series2", s2); ("type", VStr "fill")] in
          match with_color (opt_str_value (f_color a)) plot with
          | Raise e => Raise e
          | Ok plot => with_alpha (f_transp a) plot
          end
      end
  end.

Definition fill (args : list Value) (kwargs : list (string * Value))
  : M Renderer Value :=
  fun self =>
    match expand_fill_args args kwargs with
    | Raise e => (Raise e, self)
    | Ok a =>
        match fill_command a with
        | Raise e => (Raise e, self)
        | Ok plot => (Ok (VDict plot), append_plot (VDict plot) self)
        end
    end.

(** The bound methods that [__init__] put in [function_table], as
    [func_call] reaches them. *)
Definition method_call
    (builtin : string -> list Value -> list (string * Value) -> M Renderer Value)
    (id : string) : list Value -> list (string * Value) -> M Renderer Value :=
  if bool_decide (id = "RenderVM.input") then input
  else if bool_decide (id = "RenderVM.plot") then plot
  else if bool_decide (id = "RenderVM.hline") then hline
  else if bool_decide (id = "RenderVM.fill") then fill
  else builtin id.

End Renderer.

End RenderVM.

(** ** Sequences of operations *)

(** [name] assigned each value of [vs] in turn, the assignments that raise
    being caught by the caller. *)
Definition assign_all {Node Market Ext} (name : string) (vs : list Value)
    (vm : VM Node Market Ext) : VM Node Market Ext :=
  fold_left (fun vm v => (assign_variable name v vm).2) vs vm.

(** What [name] is bound to, seen from the innermost scope. *)
Definition binding {Node Market Ext} (name : string) (vm : VM Node Market Ext)
  : option Value :=
  find_binding name (rev (variable_tables vm)).

(** A computation that touches no scope but the innermost one. *)
Definition scope_local {Node Market Ext A} (c : M (VM Node Market Ext) A) : Prop :=
  forall vm outer t,
    variable_tables vm = outer ++ [t] ->
    exists t', variable_tables (c vm).2 = outer ++ [t'].

(** ** The passes as sequences of calls *)

(** What a drawing call may do to the renderer [self]: append the command it
    returns, or nothing when it raises; the rest of the machine stays. *)
Definition drawn {Node Market} (self : VM Node Market RenderVM.Render)
    (out : Result Value * VM Node Market RenderVM.Render) : Prop :=
  function_table out.2 = function_table self
  /\ variable_tables out.2 = variable_tables self
  /\ RenderVM.inputs (ext out.2) = RenderVM.inputs (ext self)
  /\ RenderVM.input_idx (ext out.2) = RenderVM.input_idx (ext self)
  /\ match out.1 with
     | Ok v => RenderVM.plots (ext out.2) = RenderVM.plots (ext self) ++ [v]
     | Raise _ => RenderVM.plots (ext out.2) = RenderVM.plots (ext self)
     end.

(** The [input] calls of a script run one after the other by the scan pass,
    the caller going on after a call that raises. *)
Definition scan_all {Node Market}
    (parse : list Value -> list (string * Value) -> Result InputArgs)
    (calls : list (list Value * list (string * Value)))
    (self : VM Node Market (list InputScanner.Descriptor))
  : VM Node Market (list InputScanner.Descriptor) :=
  fold_left (fun self c => (InputScanner.input parse c.1 c.2 self).2) calls self.

(** The arguments of the calls that parse, in the order of the calls. *)
Definition parsed_calls
    (parse : list Value -> list (string * Value) -> Result InputArgs)
    (calls : list (list Value * list (string * Value))) : list InputArgs :=
  omap (fun c => match parse c.1 c.2 with Ok a => Some a | Raise _ => None end) calls.

(** The same for the render pass. *)
Definition render_all {Node Market} (conv : Conversions)
    (accessor : nat -> M (VM Node Market RenderVM.Render) Value)
    (parse : list Value -> list (string * Value) -> Result InputArgs)
    (calls : list (list Value * list (string * Value)))
    (self : VM Node Market RenderVM.Render) : VM Node Market RenderVM.Render :=
  fold_left (fun self c => (RenderVM.input conv accessor parse c.1 c.2 self).2) calls self.

(** The bound method that [InputScanner.__init__] put in [function_table],
    as [func_call] reaches it. *)
Definition scanner_method_call {Node Market}
    (parse : list Value -> list (string * Value) -> Result InputArgs)
    (builtin : string -> list Value -> list (string * Value)
               -> M (VM Node Market (list InputScanner.Descriptor)) Value)
    (id : string)
  : list Value -> list (string * Value)
    -> M (VM Node Market (list InputScanner.Descriptor)) Value :=
  if bool_decide (id = "InputScanner.input") then InputScanner.input parse
  else builtin id.


(** ** Sample machines *)

(** A machine with a global scope binding [x] to an integer and [close] to
    a market series, under one local scope. *)
Definition sample_globals : gmap string Value :=
  {[ "x" := VInt 1; "close" := VBuiltinSeries "close" [VFloat 1%float] ]}.
Definition vm_two_scopes : VM unit unit unit :=
  mkVM ∅ [sample_globals; ∅] tt "No Title" tt.

(** A node that is one variable reference: its evaluation looks the name up.
    No accessor and no host function is implemented. *)
Definition no_accessor : nat -> M (VM string unit unit) Value :=
  fun _ => raise NotImplementedError.
Definition no_host_call
  : string -> list Value -> list (string * Value) -> M (VM string unit unit) Value :=
  fun _ _ _ => raise NotImplementedError.
Definition var_eval (node : string) : M (VM string unit unit) Value :=
  lookup_variable no_accessor node.

(** A machine whose only scope is empty and that knows [f(a, b) = b] and
    [g(a, b) = c]. *)
Definition vm_with_f : VM string unit unit :=
  mkVM {[ "f" := UserFunc ["a"; "b"] "b"; "g" := UserFunc ["a"; "b"] "c" ]} [∅] tt "No Title" tt.

(** Modelled from the spec: [builtin_function._parse_input_args] and
    [builtin_function._expand_args] are not in this file.  The first "parses
    the call's positional/named arguments into (default, title, type, min,
    max, confirm, step, options)", the second "validates" the arguments
    against the table of the call.  Here positional arguments are taken in
    the order of the table and named ones by name, an argument of another
    type than its entry names is an argument error, and so are a missing
    mandatory one and too many positional ones. *)
Definition argument (i : nat) (name : string) (args : list Value)
    (kwargs : list (string * Value)) : Value :=
  match args !! i with
  | Some v => v
  | None => default VNone (dict_get name kwargs)
  end.

Definition opt_of {A} (name : string) (f : Value -> option A) (v : Value)
  : Result (option A) :=
  match v with
  | VNone => Ok None
  | _ =>
      match f v with
      | Some x => Ok (Some x)
      | None => Raise (PineArgumentError ("Invalid argument type: " +:+ name))
      end
  end.

Definition mandatory {A} (name : string) (r : Result (option A)) : Result A :=
  match r with
  | Ok (Some x) => Ok x
  | Ok None => Raise (PineArgumentError ("Missing mandatory argument: " +:+ name))
  | Raise e => Raise e
  end.

Definition as_str (v : Value) : option string :=
  match v with VStr s => Some s | _ => None end.
Definition as_int (v : Value) : option Z :=
  match v with VInt z => Some z | _ => None end.
Definition as_bool (v : Value) : option bool :=
  match v with VBool b => Some b | _ => None end.
Definition as_float (v : Value) : option float :=
  match v with VFloat f => Some f | _ => None end.
Definition as_series (v : Value) : option Value :=
  if is_series v then Some v else None.
Definition as_dict (v : Value) : option (list (string * Value)) :=
  match v with VDict d => Some d | _ => None end.

Definition bind_result {A B} (r : Result A) (k : A -> Result B) : Result B :=
  match r with
  | Ok a => k a
  | Raise e => Raise e
  end.

Definition too_many (n : nat) (args : list Value) : Result unit :=
  if bool_decide (length args <= n) then Ok tt
  else Raise (PineArgumentError "Too many arguments").

Definition parse_input_args_model (args : list Value) (kwargs : list (string * Value))
  : Result InputArgs :=
  let arg i name := argument i name args kwargs in
  bind_result (too_many 8 args) (fun _ =>
  bind_result (opt_of "title" as_str (arg 1%nat "title")) (fun title =>
  bind_result (opt_of "type" as_str (arg 2%nat "type")) (fun typ =>
  Ok {| arg_defval := arg 0%nat "defval"; arg_title := title; arg_typ := typ;
        arg_minval := arg 3%nat "minval"; arg_maxval := arg 4%nat "maxval";
        arg_confirm := arg 5%nat "confirm"; arg_step := arg 6%nat "step";
        arg_options := arg 7%nat "options" |}))).

Definition expand_plot_args_model (args : list Value) (kwargs : list (string * Value))
  : Result PlotArgs :=
  let arg i name := argument i name args kwargs in
  bind_result (too_many 12 args) (fun _ =>
  bind_result (mandatory "series" (opt_of "series" as_series (arg 0%nat "series"))) (fun series =>
  bind_result (mandatory "title" (opt_of "title" as_str (arg 1%nat "title"))) (fun title =>
  bind_result (opt_of "linewidth" as_int (arg 3%nat "linewidth")) (fun linewidth =>
  bind_result (opt_of "style" as_int (arg 4%nat "style")) (fun style =>
  bind_result (opt_of "trackprice" as_bool (arg 5%nat "trackprice")) (fun trackprice =>
  bind_result (opt_of "transp" as_int (arg 6%nat "transp")) (fun transp =>
  bind_result (opt_of "histbase" as_float (arg 7%nat "histbase")) (fun histbase =>
  bind_result (opt_of "offset" as_int (arg 8%nat "offset")) (fun offset =>
  bind_result (opt_of "join" as_bool (arg 9%nat "join")) (fun join =>
  bind_result (opt_of "editable" as_bool (arg 10%nat "editable")) (fun editable =>
  bind_result (opt_of "show_last" as_int (arg 11%nat "show_last")) (fun show_last =>
  Ok {| p_series := series; p_title := title; p_color := arg 2%nat "color";
        p_linewidth := linewidth; p_style := style; p_trackprice := trackprice;
        p_transp := transp; p_histbase := histbase; p_offset := offset;
        p_join := join; p_editable := editable; p_show_last := show_last |})))))))))))).

Definition expand_hline_args_model (args : list Value) (kwargs : list (string * Value))
  : Result HlineArgs :=
  let arg i name := argument i name args kwargs in
  bind_result (too_many 6 args) (fun _ =>
  bind_result (mandatory "price" (opt_of "price" as_float (arg 0%nat "price"))) (fun price =>
  bind_result (opt_of "title" as_str (arg 1%nat "title")) (fun title =>
  bind_result (opt_of "color" as_str (arg 2%nat "color")) (fun color =>
  bind_result (opt_of "linestyle" as_int (arg 3%nat "linestyle")) (fun linestyle =>
  bind_result (opt_of "linewidth" as_int (arg 4%nat "linewidth")) (fun linewidth =>
  bind_result (opt_of "editable" as_bool (arg 5%nat "editable")) (fun editable =>
  Ok {| h_price := price; h_title := title; h_color := color;
        h_linestyle := linestyle; h_linewidth := linewidth;
        h_editable := editable |}))))))).

Definition expand_fill_args_model (args : list Value) (kwargs : list (string * Value))
  : Result FillArgs :=
  let arg i name := argument i name args kwargs in
  bind_result (too_many 7 args) (fun _ =>
  bind_result (mandatory "series1" (opt_of "series1" as_dict (arg 0%nat "series1"))) (fun s1 =>
  bind_result (mandatory "series2" (opt_of "series2" as_dict (arg 1%nat "series2"))) (fun s2 =>
  bind_result (opt_of "color" as_str (arg 2%nat "color")) (fun color =>
  bind_result (opt_of "transp" as_int (arg 3%nat "transp")) (fun transp =>
  bind_result (opt_of "title" as_str (arg 4%nat "title")) (fun title =>
  bind_result (opt_of "editable" as_bool (arg 5%nat "editable")) (fun editable =>
  bind_result (opt_of "show_last" as_bool (arg 6%nat "show_last")) (fun show_last =>
  Ok {| f_series1 := s1; f_series2 := s2; f_color := color; f_transp := transp;
        f_title := title; f_editable := editable; f_show_last := show_last |})))))))).

(** Conversions that refuse every string and every series. *)
Definition no_conversions : Conversions :=
  {| str_to_int := fun _ => Raise ValueError;
     str_to_float := fun _ => Raise ValueError;
     series_to_bool := fun _ => Raise ValueError;
     series_to_int := fun _ => Raise TypeError;
     series_to_float := fun _ => Raise TypeError |}.

(** Style numbers one to seven. *)
Definition sample_styles : Styles :=
  {| STYLE_LINE := 1; STYLE_STEPLINE := 2; STYLE_HISTOGRAM := 3; STYLE_CROSS := 4;
     STYLE_AREA := 5; STYLE_COLUMNS := 6; STYLE_CIRCLES := 7 |}.

(** A fresh scanner and a fresh renderer over the machine with one empty
    scope. *)
Definition vm_base : VM string unit unit := init ∅ ∅ tt tt.
Definition scanner0 : VM string unit (list InputScanner.Descriptor) :=
  InputScanner.init vm_base.
Definition renderer0 (stored : gmap string Value) : VM string unit RenderVM.Render :=
  RenderVM.init vm_base stored.
Definition no_render_accessor : nat -> M (VM string unit RenderVM.Render) Value :=
  fun _ => raise NotImplementedError.

(** No accessor is implemented. *)
Definition no_accessor_unit : nat -> M (VM unit unit unit) Value :=
  fun _ => raise NotImplementedError.

(** A machine whose global scope binds [n] to an accessor that returns 7
    and [time] to one that is not implemented. *)
Definition sample_accessor : nat -> M (VM unit unit unit) Value :=
  fun id => if (id =? 0)%nat then ret (VInt 7) else raise NotImplementedError.
Definition vm_accessors : VM unit unit unit :=
  init ∅ {[ "n" := VFunction 0; "time" := VFunction 1 ]} tt tt.

(** Two host functions: [sma] refuses its arguments, [nz] returns 0; any
    other is not implemented. *)
Definition sample_host_call
  : string -> list Value -> list (string * Value) -> M (VM string unit unit) Value :=
  fun id _ _ =>
    if bool_decide (id = "sma") then raise (PineArgumentError "Missing mandatory argument")
    else if bool_decide (id = "nz") then ret (VInt 0)
    else raise NotImplementedError.
Definition vm_with_host : VM string unit unit :=
  init {[ "sma" := HostFunc "sma"; "nz" := HostFunc "nz"; "rsi" := HostFunc "rsi" ]}
       ∅ tt tt.

(** ** Loading the builtins *)

(** [name.startswith('_')]. *)
Definition starts_with_underscore (s : string) : bool :=
  match s with
  | String c _ => Ascii.eqb c "_"%char
  | EmptyString => false
  end.

(** [s.endswith(sfx)]. *)
Fixpoint endswith (s sfx : string) : bool :=
  if String.eqb s sfx then true
  else
    match s with
    | String _ s' => endswith s' sfx
    | EmptyString => false
    end.

(** [name.replace('__', '.')]: the occurrences are taken from the left and
    do not overlap. *)
Fixpoint replace_dunder (s : string) : string :=
  match s with
  | EmptyString => EmptyString
  | String c s1 =>
      match s1 with
      | String c' rest =>
          if Ascii.eqb c "_"%char && Ascii.eqb c' "_"%char
          then String "."%char (replace_dunder rest)
          else String c (replace_dunder s1)
      | EmptyString => String c EmptyString
      end
  end.

(** One pair of [getmembers(mod, isfunction)]: a name of the module and the
    function under it, with the function's [__module__]. *)
Record Member (F : Type) : Type := {
  m_name : string;
  m_module : string;
  m_func : F
}.
Arguments m_name {F} _.
Arguments m_module {F} _.
Arguments m_func {F} _.

(** [_load_builtins], [members] being what [getmembers(mod, isfunction)]
    returns. *)
Fixpoint _load_builtins {F} (members : list (Member F)) (mod_sfx : string)
    (dest : gmap string F) : gmap string F :=
  match members with
  | [] => dest
  | m :: rest =>
      if negb (endswith (m_module m) mod_sfx) then _load_builtins rest mod_sfx dest
      else if starts_with_underscore (m_name m) then _load_builtins rest mod_sfx dest
      else _load_builtins rest mod_sfx (<[replace_dunder (m_name m) := m_func m]> dest)
  end.

(** [prepare_function_table] and [prepare_variable_tables]: a host function
    sits in the function table as [HostFunc], an accessor in the global
    scope as [VFunction]. *)
Definition prepare_function_table {Node} (functions : list (Member string))
  : gmap string (FuncEntry Node) :=
  HostFunc <$> _load_builtins functions ".builtin_function" ∅.

Definition prepare_variable_tables (variables : list (Member nat))
  : list (gmap string Value) :=
  [VFunction <$> _load_builtins variables ".builtin_variable" ∅].

(** [VM.__init__]. *)
Definition new_vm {Node Market} (functions : list (Member string))
    (variables : list (Member nat)) (mkt : Market) : VM Node Market unit :=
  mkVM (prepare_function_table functions) (prepare_variable_tables variables) mkt
       "No Title" tt.

(** Whether a name has two underscores in a row, and whether it has no dot
    (as every identifier of the host language). *)
Fixpoint has_dunder (s : string) : bool :=
  match s with
  | EmptyString => false
  | String c s1 =>
      match s1 with
      | String c' _ => (Ascii.eqb c "_"%char && Ascii.eqb c' "_"%char) || has_dunder s1
      | EmptyString => false
      end
  end.

Fixpoint no_dot (s : string) : bool :=
  match s with
  | EmptyString => true
  | String c s' => negb (Ascii.eqb c "."%char) && no_dot s'
  end.

(** Each dot written back as two underscores. *)
Fixpoint undot (s : string) : string :=
  match s with
  | EmptyString => EmptyString
  | String c s' =>
      if Ascii.eqb c "."%char then String "_"%char (String "_"%char (undot s'))
      else String c (undot s')
  end.

(** A member that is loaded: a function of the module that is not
    private. *)
Definition loaded {F} (sfx : string) (m : Member F) : bool :=
  endswith (m_module m) sfx && negb (starts_with_underscore (m_name m)).

(** The functions of a sample module: one of them private, one imported
    from elsewhere. *)
Definition sample_functions : list (Member string) :=
  [ {| m_name := "_expand_args"; m_module := "pine.vm.builtin_function";
       m_func := "_expand_args" |};
    {| m_name := "abs"; m_module := "pine.vm.builtin_function"; m_func := "abs" |};
    {| m_name := "isfunction"; m_module := "inspect"; m_func := "isfunction" |};
    {| m_name := "strategy__entry"; m_module := "pine.vm.builtin_function";
       m_func := "strategy__entry" |} ].

(** A machine whose global scope binds [close] to the series itself. *)
Definition vm_source : VM string unit unit :=
  init ∅ {[ "close" := VBuiltinSeries "close" [VFloat 1%float] ]} tt tt.

(** * Properties *)

(** ** Reassignment *)

Section Assign.

Context {Node Market Ext : Type}.
Implicit Types (vm : VM Node Market Ext) (name : string) (v value : Value).
Implicit Types (t : gmap string Value) (ts outer inner : list (gmap string Value)).

Lemma is_series_kind v : is_series v = series_kind (type_of v).
Proof. by destruct v. Qed.

Lemma compat_kinds v value :
  compat v value = true <-> kinds_compatible (type_of v) (type_of value).
Proof.
  unfold compat, kinds_compatible. rewrite !is_series_kind.
  destruct (series_kind (type_of v)) eqn:Hv.
  - split; [intros H; right; done | intros [H | [_ H]]; [| done]].
    by rewrite H.
  - rewrite bool_decide_eq_true. split.
    + intros H; left; done.
    + intros [H | [H _]]; [done | discriminate].
Qed.

Lemma compat_false_kinds v value :
  compat v value = false <-> ~ kinds_compatible (type_of v) (type_of value).
Proof.
  rewrite <- compat_kinds. destruct (compat v value); split; try done.
Qed.

(** Scopes that do not hold [name] are stepped over and left alone. *)
Lemma assign_loop_skip name value inner_rev ts :
  Forall (fun s => s !! name = None) inner_rev ->
  assign_loop name value (inner_rev ++ ts) =
    match assign_loop name value ts with
    | Some (r, ts') => Some (r, inner_rev ++ ts')
    | None => None
    end.
Proof.
  induction 1 as [| s l Hs _ IH]; simpl.
  - by destruct (assign_loop name value ts) as [[r ts'] |].
  - rewrite Hs, IH. by destruct (assign_loop name value ts) as [[r ts'] |].
Qed.

Lemma assign_loop_unbound name value ts :
  Forall (fun s => s !! name = None) ts -> assign_loop name value ts = None.
Proof. induction 1 as [| s l Hs _ IH]; simpl; [done |]. by rewrite Hs, IH. Qed.

Lemma assign_variable_found vm name value outer t inner v :
  variable_tables vm = outer ++ t :: inner ->
  Forall (fun s => s !! name = None) inner ->
  t !! name = Some v ->
  assign_variable name value vm =
    if compat v value
    then (Ok value, set_variable_tables (outer ++ <[name := value]> t :: inner) vm)
    else (Raise (PineError (InvalidTypeToAssign name value v)), vm).
Proof.
  intros Hts Hinner Ht. unfold assign_variable.
  rewrite Hts, rev_app_distr. simpl. rewrite <- app_assoc. simpl.
  rewrite assign_loop_skip by (by apply Forall_rev).
  simpl. rewrite Ht. destruct (compat v value).
  - f_equal. f_equal. rewrite rev_app_distr. simpl.
    by rewrite !rev_involutive, <- app_assoc.
  - f_equal. rewrite rev_app_distr. simpl.
    rewrite !rev_involutive, <- app_assoc. simpl. rewrite <- Hts.
    by destruct vm.
Qed.

(** C1: when [name] is bound, and [t] is the innermost scope that binds
    it, to a value of kind K1, assigning a value of kind K2 succeeds exactly
    when K2 = K1 or both are series kinds: it then returns the value and
    replaces the binding in [t] only, every other scope and field staying as
    it was; otherwise it raises the "invalid type to assign" PineError and
    changes nothing.  When no scope binds [name] it raises the "variable
    not found to assign" PineError. *)
Theorem assign_variable_spec vm name value :
  (forall outer t inner v,
      variable_tables vm = outer ++ t :: inner ->
      Forall (fun s => s !! name = None) inner ->
      t !! name = Some v ->
      (kinds_compatible (type_of v) (type_of value) ->
       assign_variable name value vm =
         (Ok value, set_variable_tables (outer ++ <[name := value]> t :: inner) vm))
      /\ (~ kinds_compatible (type_of v) (type_of value) ->
          assign_variable name value vm =
            (Raise (PineError (InvalidTypeToAssign name value v)), vm))
      /\ ((exists vm', assign_variable name value vm = (Ok value, vm'))
          <-> kinds_compatible (type_of v) (type_of value)))
  /\ (Forall (fun s => s !! name = None) (variable_tables vm) ->
      assign_variable name value vm =
        (Raise (PineError (VariableNotFoundToAssign name)), vm)).
Proof.
  split.
  - intros outer t inner v Hts Hinner Ht.
    pose proof (assign_variable_found vm name value outer t inner v Hts Hinner Ht) as Heq.
    destruct (compat v value) eqn:Hc.
    + apply compat_kinds in Hc. repeat split; try done.
      * intros _. eauto.
    + apply compat_false_kinds in Hc. repeat split; try done.
      intros [vm' Hvm']. rewrite Heq in Hvm'. discriminate.
  - intros Hnone. unfold assign_variable.
    by rewrite assign_loop_unbound by (by apply Forall_rev).
Qed.

End Assign.

Lemma assign_variable_spec_witness :
  assign_variable "x" (VInt 2) vm_two_scopes =
    (Ok (VInt 2),
     set_variable_tables
       [<["x" := VInt 2]> sample_globals; ∅]
       vm_two_scopes)
  /\ assign_variable "close" (VSeries []) vm_two_scopes =
    (Ok (VSeries []),
     set_variable_tables
       [<["close" := VSeries []]> sample_globals; ∅]
       vm_two_scopes)
  /\ assign_variable "x" (VBool true) vm_two_scopes =
    (Raise (PineError (InvalidTypeToAssign "x" (VBool true) (VInt 1))), vm_two_scopes)
  /\ assign_variable "y" (VInt 2) vm_two_scopes =
    (Raise (PineError (VariableNotFoundToAssign "y")), vm_two_scopes).
Proof.
  pose (g := sample_globals).
  split; [| split; [| split]].
  - apply (proj1 (assign_variable_spec vm_two_scopes "x" (VInt 2)) [] g [∅] (VInt 1)).
    + reflexivity.
    + repeat constructor.
    + reflexivity.
    + left; reflexivity.
  - apply (proj1 (assign_variable_spec vm_two_scopes "close" (VSeries [])) [] g [∅]
             (VBuiltinSeries "close" [VFloat 1%float])).
    + reflexivity.
    + repeat constructor.
    + reflexivity.
    + right; split; reflexivity.
  - apply (proj1 (assign_variable_spec vm_two_scopes "x" (VBool true)) [] g [∅] (VInt 1)).
    + reflexivity.
    + repeat constructor.
    + reflexivity.
    + intros [H | [H _]]; discriminate.
  - apply (proj2 (assign_variable_spec vm_two_scopes "y" (VInt 2))).
    repeat constructor.
Defined.

(** ** Scopes and calls *)

Section Calls.

Context {Node Market Ext : Type}.
Variable eval : Node -> M (VM Node Market Ext) Value.
Variable host_call :
  string -> list Value -> list (string * Value) -> M (VM Node Market Ext) Value.
Implicit Types (vm : VM Node Market Ext) (name n : string) (v value : Value).
Implicit Types (t : gmap string Value) (ts outer : list (gmap string Value)).
Implicit Types (names : list string) (args : list Value).
Implicit Types (kwargs kvs : list (string * Value)).

Lemma set_variable_tables_id vm : set_variable_tables (variable_tables vm) vm = vm.
Proof. by destruct vm. Qed.

Lemma balanced_ret {A} (a : A) : balanced (ret a : M (VM Node Market Ext) A).
Proof. done. Qed.

Lemma balanced_bind {A B} (c : M (VM Node Market Ext) A) (k : A -> M (VM Node Market Ext) B) :
  balanced c -> (forall a, balanced (k a)) -> balanced (bind c k).
Proof.
  intros Hc Hk vm. unfold bind. specialize (Hc vm).
  destruct (c vm) as [[a | e] vm1]; simpl in *; [| done].
  by rewrite Hk.
Qed.

Lemma balanced_for_each {A} (xs : list A) (f : A -> M (VM Node Market Ext) unit) :
  (forall x, balanced (f x)) -> balanced (for_each xs f).
Proof.
  intros Hf. induction xs as [| x xs IH]; simpl; [apply balanced_ret |].
  apply balanced_bind; [apply Hf | done].
Qed.

Lemma balanced_define_variable name value :
  @balanced Node Market Ext _ (define_variable name value).
Proof.
  intros vm. unfold define_variable, depth.
  destruct (rev (variable_tables vm)) as [| t outer] eqn:Hrev; simpl; [done |].
  rewrite length_app, length_rev. simpl.
  rewrite <- (length_rev (variable_tables vm)), Hrev. simpl. lia.
Qed.

Lemma balanced_check_argument n : @balanced Node Market Ext _ (check_argument n).
Proof.
  intros vm. unfold check_argument.
  destruct (rev (variable_tables vm)) as [| t outer]; [done |].
  by destruct (t !! n).
Qed.

Lemma balanced_set_func_arguments names args kwargs :
  @balanced Node Market Ext _ (_set_func_arguments names args kwargs).
Proof.
  unfold _set_func_arguments.
  repeat (apply balanced_bind; [| intros _]);
    apply balanced_for_each; intros x;
    auto using balanced_define_variable, balanced_check_argument.
Qed.

Lemma push_scope_depth vm : depth (push_scope vm).2 = S (depth vm).
Proof. unfold push_scope, depth. simpl. rewrite length_app. simpl. lia. Qed.

Lemma pop_scope_depth vm :
  depth vm <> 0 ->
  exists vm', pop_scope vm = (Ok tt, vm') /\ S (depth vm') = depth vm.
Proof.
  intros Hne. unfold pop_scope, depth in *.
  destruct (rev (variable_tables vm)) as [| t outer] eqn:Hrev.
  - apply (f_equal length) in Hrev. rewrite length_rev in Hrev. done.
  - eexists; split; [done |]. simpl. rewrite length_rev.
    rewrite <- (length_rev (variable_tables vm)), Hrev. done.
Qed.

(** A scope pushed around a balanced body is popped again, on return and
    on raise alike. *)
Lemma scoped_balanced {A} (body : M (VM Node Market Ext) A) vm :
  balanced body ->
  exists r vm1 vm2,
    body (push_scope vm).2 = (r, vm1)
    /\ pop_scope vm1 = (Ok tt, vm2)
    /\ try_finally body pop_scope (push_scope vm).2 = (r, vm2)
    /\ depth vm2 = depth vm.
Proof.
  intros Hbody. unfold try_finally.
  pose proof (Hbody (push_scope vm).2) as Hd. rewrite push_scope_depth in Hd.
  destruct (body (push_scope vm).2) as [r vm1]; simpl in Hd.
  destruct (pop_scope_depth vm1) as (vm2 & Hpop & Hd2); [lia |].
  exists r, vm1, vm2. rewrite Hpop. repeat split; try done. lia.
Qed.

Lemma try_finally_push {A} (body : M (VM Node Market Ext) A) vm :
  try_finally (push_scope ;;; body) pop_scope vm =
  try_finally body pop_scope (push_scope vm).2.
Proof. done. Qed.

Lemma eval_node_unfold node vm :
  eval_node eval node vm =
  try_finally (eval node ;;; ret VNone) pop_scope (push_scope vm).2.
Proof. done. Qed.

(** C2: around a body whose own evaluation is balanced, [eval_node] and
    the call of a user-defined function leave the scope stack as deep as
    they found it, whatever the outcome (a value, a failed argument
    binding, a raising body).  [eval_node] pushes one scope, evaluates the
    node in it and pops one scope from the state the node left, passing on
    the node's exception if it raised and returning None otherwise. *)
Theorem scope_balance node :
  balanced (eval node) ->
  forall vm,
    (exists r vm1,
        eval node (push_scope vm).2 = (r, vm1)
        /\ pop_scope vm1 = (Ok tt, (eval_node eval node vm).2)
        /\ (eval_node eval node vm).1 =
             match r with Ok _ => Ok VNone | Raise e => Raise e end)
    /\ depth (eval_node eval node vm).2 = depth vm
    /\ (forall fname args kwargs arg_ids,
          function_table vm !! fname = Some (UserFunc arg_ids node) ->
          depth (func_call eval host_call fname args kwargs vm).2 = depth vm)
    /\ (forall fname args kwargs,
          function_table vm !! fname = None ->
          func_call eval host_call fname args kwargs vm =
            (Raise (PineError (FunctionNotFound fname)), vm)).
Proof.
  intros Hnode vm.
  assert (Hbody : balanced (eval node ;;; ret VNone)).
  { apply balanced_bind; [done | intros a; apply balanced_ret]. }
  destruct (scoped_balanced (eval node ;;; ret VNone) vm Hbody)
    as (r' & vm1' & vm2 & Hrun & Hpop & Htf & Hd).
  rewrite eval_node_unfold, Htf. simpl.
  split; [| split; [done | split]].
  - unfold bind in Hrun.
    destruct (eval node (push_scope vm).2) as [r vm1] eqn:Heval.
    exists r, vm1. split; [done |].
    destruct r as [a | e]; simpl in Hrun; inversion Hrun; subst; done.
  - intros fname args kwargs arg_ids Hf. unfold func_call. rewrite Hf.
    rewrite try_finally_push.
    destruct (scoped_balanced (_set_func_arguments arg_ids args kwargs ;;; eval node) vm)
      as (r & vm1 & vm3 & _ & _ & Htf' & Hd').
    { apply balanced_bind; [apply balanced_set_func_arguments | done]. }
    by rewrite Htf'.
  - intros fname args kwargs Hf. unfold func_call. by rewrite Hf.
Qed.

Lemma define_variable_top name value vm outer t :
  variable_tables vm = outer ++ [t] ->
  define_variable name value vm =
    (Ok tt, set_variable_tables (outer ++ [<[name := value]> t]) vm).
Proof.
  intros Hts. unfold define_variable. rewrite Hts, rev_unit. simpl.
  by rewrite rev_involutive.
Qed.

Lemma for_each_define kvs : forall vm outer t,
  variable_tables vm = outer ++ [t] ->
  for_each kvs (fun ka => define_variable ka.1 ka.2) vm =
    (Ok tt, set_variable_tables (outer ++ [bound_scope t kvs]) vm).
Proof.
  induction kvs as [| [k a] kvs IH]; intros vm outer t Hts; simpl.
  - unfold ret. by rewrite <- Hts, set_variable_tables_id.
  - unfold bind. rewrite (define_variable_top k a vm outer t Hts).
    by rewrite (IH _ outer (<[k := a]> t)).
Qed.

Lemma for_each_check names vm outer t :
  variable_tables vm = outer ++ [t] ->
  for_each names check_argument vm =
    match find (missing t) names with
    | Some n => (Raise (PineError (MissingArgument n)), vm)
    | None => (Ok tt, vm)
    end.
Proof.
  intros Hts. induction names as [| n names IH]; simpl; [done |].
  unfold bind, check_argument at 1. rewrite Hts, rev_unit. unfold missing at 1.
  by destruct (t !! n).
Qed.

Lemma bound_scope_app t kvs kvs' :
  bound_scope t (kvs ++ kvs') = bound_scope (bound_scope t kvs) kvs'.
Proof. apply fold_left_app. Qed.

Lemma _set_func_arguments_spec names args kwargs vm outer t :
  variable_tables vm = outer ++ [t] ->
  _set_func_arguments names args kwargs vm =
    (match find (missing (bound_scope t (zip names args ++ kwargs))) names with
     | Some n => Raise (PineError (MissingArgument n))
     | None => Ok tt
     end,
     set_variable_tables (outer ++ [bound_scope t (zip names args ++ kwargs)]) vm).
Proof.
  intros Hts. unfold _set_func_arguments, bind.
  rewrite (for_each_define (zip names args) vm outer t Hts).
  rewrite (for_each_define kwargs _ outer (bound_scope t (zip names args))) by done.
  rewrite (for_each_check names _ outer (bound_scope t (zip names args ++ kwargs)))
    by (by rewrite bound_scope_app).
  rewrite bound_scope_app. simpl.
  by destruct (find _ names).
Qed.

Lemma pop_scope_top vm outer t :
  variable_tables vm = outer ++ [t] ->
  pop_scope vm = (Ok tt, set_variable_tables outer vm).
Proof.
  intros Hts. unfold pop_scope. by rewrite Hts, rev_unit, rev_involutive.
Qed.

(** The call of a user-defined function: the formals are bound in a fresh
    scope; a formal left unbound ends the call with the stack restored,
    otherwise the body runs in that scope. *)
Lemma func_call_user fname names node args kwargs vm :
  function_table vm !! fname = Some (UserFunc names node) ->
  func_call eval host_call fname args kwargs vm =
    match find (missing (bound_scope ∅ (zip names args ++ kwargs))) names with
    | Some n => (Raise (PineError (MissingArgument n)), vm)
    | None =>
        try_finally (eval node) pop_scope
          (set_variable_tables
             (variable_tables vm ++ [bound_scope ∅ (zip names args ++ kwargs)]) vm)
    end.
Proof.
  intros Hf. unfold func_call. rewrite Hf, try_finally_push.
  unfold try_finally, bind.
  rewrite (_set_func_arguments_spec names args kwargs _ (variable_tables vm) ∅) by done.
  destruct (find _ names) as [n |]; [| done].
  rewrite (pop_scope_top _ (variable_tables vm) (bound_scope ∅ (zip names args ++ kwargs)))
    by done.
  by destruct vm.
Qed.

Lemma bound_scope_lookup_None kvs : forall t n,
  bound_scope t kvs !! n = None <-> t !! n = None /\ n ∉ kvs.*1.
Proof.
  induction kvs as [| [k a] kvs IH]; intros t n; simpl.
  - split; [intros H; split; [done | apply not_elem_of_nil] | by intros [H _]].
  - rewrite IH, not_elem_of_cons. split.
    + intros [Hl Hn]. destruct (decide (k = n)) as [-> | Hne].
      * by rewrite lookup_insert_eq in Hl.
      * rewrite lookup_insert_ne in Hl by done. split; [done | split; [congruence | done]].
    + intros [Hl [Hne Hn]]. split; [| done]. by rewrite lookup_insert_ne.
Qed.

Lemma bound_scope_lookup_Some kvs : forall t k a,
  NoDup kvs.*1 -> (k, a) ∈ kvs -> bound_scope t kvs !! k = Some a.
Proof.
  induction kvs as [| [k' a'] kvs IH]; intros t k a Hnd Hin; simpl in *.
  - by apply elem_of_nil in Hin.
  - apply NoDup_cons in Hnd as [Hk' Hnd].
    apply elem_of_cons in Hin as [Heq | Hin].
    + inversion Heq; subst k' a'.
      destruct (bound_scope (<[k := a]> t) kvs !! k) as [v |] eqn:Hl.
      * assert (Hkeep : forall kvs' t', k ∉ kvs'.*1 ->
                  bound_scope t' kvs' !! k = t' !! k).
        { clear. induction kvs' as [| [k2 a2] kvs' IH']; intros t' Hn; simpl; [done |].
          simpl in Hn. apply not_elem_of_cons in Hn as [Hne Hn].
          rewrite IH' by done. by rewrite lookup_insert_ne. }
        rewrite Hkeep in Hl by done. by rewrite lookup_insert_eq in Hl.
      * apply bound_scope_lookup_None in Hl as [Hl _].
        by rewrite lookup_insert_eq in Hl.
    + by apply IH.
Qed.

Lemma zip_fst names : forall args, (zip names args).*1 = take (length args) names.
Proof.
  induction names as [| n names IH]; intros [| a args]; simpl; try done.
  by rewrite IH.
Qed.

Lemma zip_excess names : forall args extra,
  length names <= length args -> zip names (args ++ extra) = zip names args.
Proof.
  induction names as [| n names IH]; intros [| a args] extra Hlen; simpl in *;
    try done; try lia.
  rewrite IH; [done | lia].
Qed.

Lemma find_missing_Some t names n :
  n ∈ names -> t !! n = None ->
  exists m, find (missing t) names = Some m /\ m ∈ names /\ t !! m = None.
Proof.
  intros Hin Hn. destruct (find (missing t) names) as [m |] eqn:Hfind.
  - apply find_some in Hfind as [Hm Hmiss]. exists m. split; [done |].
    split; [by apply list_elem_of_In |].
    unfold missing in Hmiss. by destruct (t !! m).
  - apply list_elem_of_In in Hin.
    pose proof (find_none _ _ Hfind n Hin) as Hmiss.
    unfold missing in Hmiss. by rewrite Hn in Hmiss.
Qed.

Lemma find_missing_None t names :
  (forall n, n ∈ names -> is_Some (t !! n)) -> find (missing t) names = None.
Proof.
  intros Hall. destruct (find (missing t) names) as [m |] eqn:Hfind; [| done].
  apply find_some in Hfind as [Hm Hmiss]. apply list_elem_of_In in Hm.
  destruct (Hall m Hm) as [v Hv]. unfold missing in Hmiss. by rewrite Hv in Hmiss.
Qed.

(** C3: a function declared with formals [(a, b)] called with the named
    argument [b] alone raises "missing argument: a", and called with one
    positional argument alone raises "missing argument: b"; in general a
    call in which some formal is bound neither positionally nor by name
    raises the missing-argument PineError for such a formal, and so does
    [_set_func_arguments] whenever a formal is left unbound in the
    innermost scope.  The failed call leaves the machine as it found it. *)
Theorem missing_argument vm fname node :
  (forall a b x,
      a <> b ->
      function_table vm !! fname = Some (UserFunc [a; b] node) ->
      func_call eval host_call fname [] [(b, x)] vm =
        (Raise (PineError (MissingArgument a)), vm)
      /\ func_call eval host_call fname [x] [] vm =
        (Raise (PineError (MissingArgument b)), vm))
  /\ (forall names args kwargs n,
        function_table vm !! fname = Some (UserFunc names node) ->
        n ∈ names -> (n ∉ take (length args) names) -> (n ∉ kwargs.*1) ->
        exists m,
          m ∈ names /\ (m ∉ take (length args) names) /\ (m ∉ kwargs.*1)
          /\ func_call eval host_call fname args kwargs vm =
               (Raise (PineError (MissingArgument m)), vm))
  /\ (forall outer t names args kwargs n,
        variable_tables vm = outer ++ [t] ->
        n ∈ names ->
        bound_scope t (zip names args ++ kwargs) !! n = None ->
        exists m,
          m ∈ names /\ bound_scope t (zip names args ++ kwargs) !! m = None
          /\ _set_func_arguments names args kwargs vm =
               (Raise (PineError (MissingArgument m)),
                set_variable_tables
                  (outer ++ [bound_scope t (zip names args ++ kwargs)]) vm)).
Proof.
  split; [| split].
  - intros a b x Hab Hf. split; rewrite (func_call_user _ _ _ _ _ _ Hf); simpl.
    + unfold missing at 1.
      rewrite lookup_insert_ne, lookup_empty by done. done.
    + unfold missing at 1. rewrite lookup_insert_eq.
      unfold missing at 1.
      rewrite lookup_insert_ne, lookup_empty by done. done.
  - intros names args kwargs n Hf Hin Hpos Hkw.
    rewrite (func_call_user _ _ _ _ _ _ Hf).
    destruct (find_missing_Some (bound_scope ∅ (zip names args ++ kwargs)) names n)
      as (m & Hfind & Hm & Hnone); [done | |].
    { apply bound_scope_lookup_None. split; [apply lookup_empty |].
      rewrite fmap_app, zip_fst. by apply not_elem_of_app. }
    exists m. rewrite Hfind.
    apply bound_scope_lookup_None in Hnone as [_ Hnone].
    rewrite fmap_app, zip_fst in Hnone. apply not_elem_of_app in Hnone as [H1 H2].
    done.
  - intros outer t names args kwargs n Hts Hin Hnone.
    rewrite (_set_func_arguments_spec _ _ _ _ _ _ Hts).
    destruct (find_missing_Some _ names n Hin Hnone) as (m & Hfind & Hm & Hmnone).
    exists m. by rewrite Hfind.
Qed.

(** C9: in a call of a user-defined function whose formals are all bound,
    binding raises nothing whatever else is passed: every named argument,
    also one whose name is no formal, is defined in the call scope in which
    the body then runs, and positional arguments beyond the formals change
    nothing. *)
Theorem extra_arguments_accepted vm fname names node args kwargs :
  function_table vm !! fname = Some (UserFunc names node) ->
  NoDup kwargs.*1 ->
  (forall n, n ∈ names -> n ∈ take (length args) names \/ n ∈ kwargs.*1) ->
  _set_func_arguments names args kwargs (push_scope vm).2 =
    (Ok tt,
     set_variable_tables
       (variable_tables vm ++ [bound_scope ∅ (zip names args ++ kwargs)]) vm)
  /\ func_call eval host_call fname args kwargs vm =
       try_finally (eval node) pop_scope
         (set_variable_tables
            (variable_tables vm ++ [bound_scope ∅ (zip names args ++ kwargs)]) vm)
  /\ (forall k a,
        (k, a) ∈ kwargs ->
        bound_scope ∅ (zip names args ++ kwargs) !! k = Some a)
  /\ (forall extra,
        length names <= length args ->
        func_call eval host_call fname (args ++ extra) kwargs vm =
        func_call eval host_call fname args kwargs vm).
Proof.
  intros Hf Hnd Hall.
  assert (Hfind : find (missing (bound_scope ∅ (zip names args ++ kwargs))) names = None).
  { apply find_missing_None. intros n Hn.
    destruct (bound_scope ∅ (zip names args ++ kwargs) !! n) as [v |] eqn:Hl; [by eexists |].
    apply bound_scope_lookup_None in Hl as [_ Hl].
    rewrite fmap_app, zip_fst in Hl. apply not_elem_of_app in Hl as [H1 H2].
    by destruct (Hall n Hn). }
  split; [| split; [| split]].
  - rewrite (_set_func_arguments_spec names args kwargs _ (variable_tables vm) ∅) by done.
    by rewrite Hfind.
  - by rewrite (func_call_user _ _ _ _ _ _ Hf), Hfind.
  - intros k a Hin. rewrite bound_scope_app. by apply bound_scope_lookup_Some.
  - intros extra Hlen. rewrite !(func_call_user _ _ _ _ _ _ Hf).
    by rewrite zip_excess.
Qed.

End Calls.

Lemma var_eval_state node vm : (var_eval node vm).2 = vm.
Proof.
  unfold var_eval, lookup_variable.
  destruct (find_binding node (rev (variable_tables vm))) as [v |]; [| done].
  by destruct v.
Qed.

Lemma var_eval_balanced node : balanced (var_eval node).
Proof. intros vm. by rewrite var_eval_state. Qed.

Lemma scope_balance_witness :
  depth (eval_node var_eval "b" vm_with_f).2 = depth vm_with_f
  /\ depth (func_call var_eval no_host_call "f" [VInt 1] [] vm_with_f).2 = depth vm_with_f.
Proof.
  pose proof (scope_balance var_eval no_host_call "b" (var_eval_balanced "b") vm_with_f)
    as (_ & Hnode & Hcall & _).
  split; [exact Hnode |].
  apply (Hcall "f" [VInt 1] [] ["a"; "b"]). reflexivity.
Defined.

Lemma missing_argument_witness :
  func_call var_eval no_host_call "f" [] [("b", VInt 1)] vm_with_f =
    (Raise (PineError (MissingArgument "a")), vm_with_f)
  /\ func_call var_eval no_host_call "f" [VInt 1] [] vm_with_f =
    (Raise (PineError (MissingArgument "b")), vm_with_f).
Proof.
  apply (proj1 (missing_argument var_eval no_host_call vm_with_f "f" "b") "a" "b" (VInt 1)).
  - discriminate.
  - reflexivity.
Defined.

Lemma extra_arguments_accepted_witness :
  func_call var_eval no_host_call "g" [VInt 1; VInt 2; VInt 3] [("c", VInt 7)] vm_with_f =
    func_call var_eval no_host_call "g" [VInt 1; VInt 2] [("c", VInt 7)] vm_with_f
  /\ func_call var_eval no_host_call "g" [VInt 1; VInt 2; VInt 3] [("c", VInt 7)] vm_with_f =
    (Ok (VInt 7), vm_with_f).
Proof.
  assert (Hnd : NoDup ([("c", VInt 7)] : list (string * Value)).*1).
  { simpl. apply NoDup_singleton. }
  assert (Hall : forall n : string,
             n ∈ ["a"; "b"] ->
             n ∈ take (length [VInt 1; VInt 2]) ["a"; "b"]
             \/ n ∈ ([("c", VInt 7)] : list (string * Value)).*1).
  { intros n Hn. left. exact Hn. }
  pose proof (extra_arguments_accepted var_eval no_host_call vm_with_f "g" ["a"; "b"] "c"
                [VInt 1; VInt 2] [("c", VInt 7)] eq_refl Hnd Hall)
    as (_ & _ & _ & Hextra).
  split.
  - apply (Hextra [VInt 3]). simpl. lia.
  - reflexivity.
Defined.

(** ** The scan pass *)

Section ScanFacts.

Context {Node Market : Type}.
Variable parse : list Value -> list (string * Value) -> Result InputArgs.
Implicit Types (self : VM Node Market (list InputScanner.Descriptor)).
Implicit Types (args : list Value) (kwargs : list (string * Value)) (a : InputArgs).

Lemma scan_input_run self args kwargs a :
  parse args kwargs = Ok a ->
  InputScanner.input parse args kwargs self =
    (Ok (arg_defval a),
     set_ext (ext self ++ [InputScanner.descriptor (ext self) a]) self).
Proof. intros Hp. unfold InputScanner.input. by rewrite Hp. Qed.

Lemma descriptor_auto_title (inputs : list InputScanner.Descriptor) a :
  not_str (arg_title a) = true ->
  InputScanner.d_title (InputScanner.descriptor inputs a) = auto_title (length inputs + 1).
Proof.
  intros Ht. unfold InputScanner.descriptor. rewrite Ht.
  by destruct (arg_typ a); [| destruct (InputScanner.infer (arg_defval a))].
Qed.

(** C5: a call of the scan pass's [input] whose arguments parse appends one
    descriptor to [self.inputs], touches nothing else, and returns the
    default it was given.  With no type given and a market series as default
    the descriptor has type "source" and records the series' [varname],
    while the call still returns the series. *)
Theorem scan_input_spec self args kwargs a :
  parse args kwargs = Ok a ->
  exists d,
    InputScanner.input parse args kwargs self =
      (Ok (arg_defval a), set_ext (ext self ++ [d]) self)
    /\ length (ext (InputScanner.input parse args kwargs self).2) = S (length (ext self))
    /\ (forall varname samples,
          arg_typ a = None ->
          arg_defval a = VBuiltinSeries varname samples ->
          InputScanner.d_type d = "source"
          /\ InputScanner.d_defval d = VStr varname
          /\ (InputScanner.input parse args kwargs self).1 =
               Ok (VBuiltinSeries varname samples))
    /\ (InputScanner.d_type d <> "source" -> InputScanner.d_defval d = arg_defval a).
Proof.
  intros Hp. exists (InputScanner.descriptor (ext self) a).
  rewrite (scan_input_run _ _ _ _ Hp). simpl.
  split; [done |]. split; [rewrite length_app; simpl; lia |]. split.
  - intros varname samples Htyp Hdef. unfold InputScanner.descriptor.
    rewrite Htyp, Hdef. done.
  - unfold InputScanner.descriptor.
    destruct (arg_typ a) as [t |]; [done |].
    destruct (arg_defval a); simpl; done.
Qed.

(** C6: when the scan pass starts with no input and runs two [input] calls
    without a title, whatever runs in between leaving [self.inputs] alone,
    the descriptors are titled "input1" and "input2", in call order; the
    title given to an untitled call is "input" followed by one more than the
    number of inputs seen so far. *)
Theorem auto_titles self0 self1 args1 kwargs1 a1 args2 kwargs2 a2 :
  ext self0 = [] ->
  parse args1 kwargs1 = Ok a1 -> not_str (arg_title a1) = true ->
  ext self1 = ext (InputScanner.input parse args1 kwargs1 self0).2 ->
  parse args2 kwargs2 = Ok a2 -> not_str (arg_title a2) = true ->
  InputScanner.d_title <$> ext (InputScanner.input parse args2 kwargs2 self1).2 =
    ["input1"; "input2"]
  /\ (forall self args kwargs a,
        parse args kwargs = Ok a -> not_str (arg_title a) = true ->
        last (InputScanner.d_title <$> ext (InputScanner.input parse args kwargs self).2) =
          Some (auto_title (length (ext self) + 1))).
Proof.
  intros H0 Hp1 Ht1 H1 Hp2 Ht2. split.
  - rewrite (scan_input_run _ _ _ _ Hp2). simpl. rewrite H1.
    rewrite (scan_input_run _ _ _ _ Hp1). simpl. rewrite H0. simpl.
    rewrite !descriptor_auto_title by done. done.
  - intros self args kwargs a Hp Ht.
    rewrite (scan_input_run _ _ _ _ Hp). simpl.
    rewrite fmap_app. simpl. rewrite last_snoc. by rewrite descriptor_auto_title.
Qed.

End ScanFacts.

Lemma scan_input_spec_witness :
  exists d,
    InputScanner.input parse_input_args_model
      [VBuiltinSeries "close" [VFloat 1%float]] [] scanner0 =
    (Ok (VBuiltinSeries "close" [VFloat 1%float]), set_ext [d] scanner0)
    /\ InputScanner.d_type d = "source"
    /\ InputScanner.d_defval d = VStr "close".
Proof.
  destruct (scan_input_spec parse_input_args_model scanner0
              [VBuiltinSeries "close" [VFloat 1%float]] [] _ eq_refl)
    as (d & Hrun & _ & Hsource & _).
  exists d. split; [exact Hrun |].
  destruct (Hsource "close" [VFloat 1%float] eq_refl eq_refl) as (Ht & Hd & _).
  split; [exact Ht | exact Hd].
Defined.

Lemma auto_titles_witness :
  InputScanner.d_title <$>
    ext (InputScanner.input parse_input_args_model [VFloat 2.5%float] []
           (InputScanner.input parse_input_args_model [VInt 5] [] scanner0).2).2 =
  ["input1"; "input2"].
Proof.
  apply (proj1 (auto_titles parse_input_args_model scanner0 _
                  [VInt 5] [] _ [VFloat 2.5%float] [] _
                  eq_refl eq_refl eq_refl eq_refl eq_refl eq_refl)).
Defined.

(** ** Conversions *)

Example float_of_int_5 : float_of_int 5 = Ok 5%float.
Proof. reflexivity. Qed.

Example float_of_int_rounds : float_of_int (2 ^ 53 + 1) = Ok 9007199254740992%float.
Proof. vm_compute. reflexivity. Qed.

Example float_of_int_overflow : float_of_int (2 ^ 1024) = Raise OverflowError.
Proof. vm_compute. reflexivity. Qed.

Example int_of_float_truncates :
  int_of_float 2.5%float = Ok 2%Z /\ int_of_float (-2.5)%float = Ok (-2)%Z.
Proof. split; vm_compute; reflexivity. Qed.

Example int_of_float_nan : int_of_float nan = Raise ValueError.
Proof. vm_compute. reflexivity. Qed.

(** [transp * 0.01] is not always the double nearest to [transp / 100]. *)
Example alpha_of_57 :
  alpha_of 57 = Ok (VFloat 0.57000000000000006%float)
  /\ PrimFloat.div 57%float 100%float = 0.56999999999999995%float.
Proof. split; vm_compute; reflexivity. Qed.

Lemma scan_input_parse_error {Node Market}
    (parse : list Value -> list (string * Value) -> Result InputArgs)
    (s : VM Node Market (list InputScanner.Descriptor)) args kwargs e :
  parse args kwargs = Raise e ->
  InputScanner.input parse args kwargs s = (Raise e, s).
Proof. intros Hp. unfold InputScanner.input. by rewrite Hp. Qed.

(** ** Dicts *)

Lemma dict_get_set_eq k v d : dict_get k (dict_set k v d) = Some v.
Proof.
  induction d as [| [k' v'] d IH]; simpl.
  - by rewrite bool_decide_eq_true_2.
  - destruct (bool_decide (k' = k)) eqn:Hk; simpl.
    + by rewrite bool_decide_eq_true_2.
    + by rewrite Hk.
Qed.

Lemma dict_get_set_ne k k' v d : k' <> k -> dict_get k (dict_set k' v d) = dict_get k d.
Proof.
  intros Hne. induction d as [| [k2 v2] d IH]; simpl.
  - by rewrite bool_decide_eq_false_2.
  - destruct (bool_decide (k2 = k')) eqn:Hk; simpl.
    + apply bool_decide_eq_true in Hk. subst k2.
      by rewrite !bool_decide_eq_false_2.
    + destruct (bool_decide (k2 = k)); [done | apply IH].
Qed.

(** Every transparency from 0 to 100 has a double. *)
Lemma float_of_int_percent z :
  (0 <= z <= 100)%Z -> exists f, float_of_int z = Ok f.
Proof.
  intros Hz.
  assert (Hall : forallb (fun n => match float_of_int (Z.of_nat n) with
                                   | Ok _ => true
                                   | Raise _ => false
                                   end) (seq 0 101) = true) by (vm_compute; reflexivity).
  rewrite forallb_forall in Hall.
  specialize (Hall (Z.to_nat z)). rewrite Z2Nat.id in Hall by lia.
  destruct (float_of_int z) as [f |]; [by exists f |].
  discriminate Hall. apply in_seq. lia.
Qed.



(** ** The render pass *)

Section RenderFacts.

Context {Node Market : Type}.
Variable conv : Conversions.
Variable styles : Styles.
Variable accessor : nat -> M (VM Node Market RenderVM.Render) Value.
Variable parse : list Value -> list (string * Value) -> Result InputArgs.
Variable expand_plot : list Value -> list (string * Value) -> Result PlotArgs.
Variable expand_hline : list Value -> list (string * Value) -> Result HlineArgs.
Variable expand_fill : list Value -> list (string * Value) -> Result FillArgs.
Implicit Types (self : VM Node Market RenderVM.Render).
Implicit Types (args : list Value) (kwargs : list (string * Value)).
Implicit Types (plot cmd : list (string * Value)).

Lemma render_input_run self args kwargs a :
  parse args kwargs = Ok a ->
  RenderVM.input conv accessor parse args kwargs self =
    match RenderVM.inputs (ext self)
          !! RenderVM.input_title (RenderVM.input_idx (ext self) + 1) a with
    | None =>
        (Raise (KeyError (RenderVM.input_title (RenderVM.input_idx (ext self) + 1) a)),
         RenderVM.set_input_idx (RenderVM.input_idx (ext self) + 1) self)
    | Some val =>
        RenderVM.coerce conv accessor (RenderVM.render_type a) val
          (RenderVM.set_input_idx (RenderVM.input_idx (ext self) + 1) self)
    end.
Proof. intros Hp. unfold RenderVM.input. by rewrite Hp. Qed.

(** C10: when the stored inputs hold nothing under the title of the call
    (the given one, or "input" and the call's number), the render pass's
    [input] raises KeyError with that title, whatever the type and the
    default are and before any conversion is tried; the call counter has
    been advanced.  KeyError is no PineError, and [func_call] passes it on
    as it is. *)
Theorem render_input_missing_key self args kwargs a :
  parse args kwargs = Ok a ->
  RenderVM.inputs (ext self) !! RenderVM.input_title (RenderVM.input_idx (ext self) + 1) a = None ->
  RenderVM.input conv accessor parse args kwargs self =
    (Raise (KeyError (RenderVM.input_title (RenderVM.input_idx (ext self) + 1) a)),
     RenderVM.set_input_idx (RenderVM.input_idx (ext self) + 1) self)
  /\ (forall msg,
        (RenderVM.input conv accessor parse args kwargs self).1 <> Raise (PineError msg))
  /\ (forall eval builtin,
        function_table self !! "input" = Some (HostFunc "RenderVM.input") ->
        func_call eval
          (RenderVM.method_call conv styles accessor parse expand_plot expand_hline
             expand_fill builtin)
          "input" args kwargs self =
        (Raise (KeyError (RenderVM.input_title (RenderVM.input_idx (ext self) + 1) a)),
         RenderVM.set_input_idx (RenderVM.input_idx (ext self) + 1) self)).
Proof.
  intros Hp Hnone.
  assert (Hrun := render_input_run self args kwargs a Hp). rewrite Hnone in Hrun.
  split; [done |]. split.
  - intros msg. by rewrite Hrun.
  - intros eval builtin Hf. unfold func_call. rewrite Hf.
    unfold RenderVM.method_call. rewrite bool_decide_eq_true_2 by done.
    by rewrite Hrun.
Qed.

Lemma with_style_alpha st plot :
  dict_get "alpha" (RenderVM.with_style styles st plot) = dict_get "alpha" plot.
Proof.
  unfold RenderVM.with_style. destruct st as [z |]; [| done].
  destruct (truthy_int (Some z)); [| done].
  destruct (RenderVM.style_type styles z) as [typ [m |]];
    by rewrite !dict_get_set_ne.
Qed.

Lemma with_style_series st plot :
  dict_get "series" (RenderVM.with_style styles st plot) = dict_get "series" plot.
Proof.
  unfold RenderVM.with_style. destruct st as [z |]; [| done].
  destruct (truthy_int (Some z)); [| done].
  destruct (RenderVM.style_type styles z) as [typ [m |]];
    by rewrite !dict_get_set_ne.
Qed.

Lemma with_color_ok color c plot :
  resolve_color color = Ok c ->
  exists plot',
    RenderVM.with_color color plot = Ok plot'
    /\ (forall k, k <> "color" -> dict_get k plot' = dict_get k plot).
Proof.
  intros Hc. unfold RenderVM.with_color.
  destruct color; try rewrite Hc;
    try (eexists; split; [done |]; intros k Hk; by rewrite dict_get_set_ne).
  by exists plot.
Qed.

Lemma with_color_keeps color plot plot' k :
  RenderVM.with_color color plot = Ok plot' ->
  k <> "color" -> dict_get k plot' = dict_get k plot.
Proof.
  unfold RenderVM.with_color. intros Hc Hk.
  destruct color; try (by inversion Hc);
    destruct (resolve_color _) as [c |]; inversion Hc; subst;
    by rewrite dict_get_set_ne.
Qed.

Lemma with_width_keeps w plot k :
  k <> "width" -> dict_get k (RenderVM.with_width w plot) = dict_get k plot.
Proof.
  intros Hk. unfold RenderVM.with_width. destruct w as [z |]; [| done].
  destruct (truthy_int (Some z)); [| done]. by rewrite dict_get_set_ne.
Qed.

Lemma with_alpha_keeps tr plot plot' k :
  RenderVM.with_alpha tr plot = Ok plot' ->
  k <> "alpha" -> dict_get k plot' = dict_get k plot.
Proof.
  unfold RenderVM.with_alpha. intros Ha Hk. destruct tr as [z |].
  - destruct (truthy_int (Some z)).
    + destruct (alpha_of z) as [f |]; inversion Ha; subst. by rewrite dict_get_set_ne.
    + by inversion Ha.
  - by inversion Ha.
Qed.


Lemma plot_command_series (a : PlotArgs) cmd :
  RenderVM.plot_command styles a = Ok cmd -> dict_get "series" cmd = Some (p_series a).
Proof.
  unfold RenderVM.plot_command. intros Hcmd.
  destruct (RenderVM.with_color (p_color a) _) as [plot1 |] eqn:Hcol; [| done].
  rewrite (with_alpha_keeps _ _ _ "series" Hcmd) by done.
  rewrite with_width_keeps by done.
  rewrite (with_color_keeps _ _ _ "series" Hcol) by done.
  by rewrite with_style_series.
Qed.

Lemma plot_result self self' args kwargs (a : PlotArgs) cmd :
  expand_plot args kwargs = Ok a ->
  RenderVM.plot styles expand_plot args kwargs self = (Ok (VDict cmd), self') ->
  self' = RenderVM.append_plot (VDict cmd) self
  /\ dict_get "series" cmd = Some (p_series a).
Proof.
  unfold RenderVM.plot. intros Hexp Hrun. rewrite Hexp in Hrun.
  destruct (RenderVM.plot_command styles a) as [plot |] eqn:Hcmd; [| done].
  inversion Hrun; subst. split; [done |]. by apply plot_command_series.
Qed.

Lemma fill_command_ok (af : FillArgs) s1 s2 :
  dict_get "series" (f_series1 af) = Some s1 ->
  dict_get "series" (f_series2 af) = Some s2 ->
  (forall z, f_transp af = Some z -> (0 <= z <= 100)%Z) ->
  exists cmd,
    RenderVM.fill_command af = Ok cmd
    /\ dict_get "type" cmd = Some (VStr "fill")
    /\ dict_get "series" cmd = Some s1
    /\ dict_get "series2" cmd = Some s2.
Proof.
  intros H1 H2 Htr. unfold RenderVM.fill_command. rewrite H1, H2.
  destruct (with_color_ok (opt_str_value (f_color af)) (opt_str_value (f_color af))
              [("title", opt_str_value (f_title af)); ("series", s1); ("series2", s2);
               ("type", VStr "fill")]) as (plot1 & Hcol & Hkeep).
  { by destruct (f_color af). }
  rewrite Hcol.
  assert (Halpha : exists cmd, RenderVM.with_alpha (f_transp af) plot1 = Ok cmd).
  { unfold RenderVM.with_alpha. destruct (f_transp af) as [z |] eqn:Hz; [| by eexists].
    destruct (truthy_int (Some z)); [| by eexists].
    unfold alpha_of. destruct (float_of_int_percent z (Htr z eq_refl)) as [f Hf].
    rewrite Hf. by eexists. }
  destruct Halpha as [cmd Hcmd]. exists cmd. split; [done |].
  rewrite !(with_alpha_keeps _ _ _ _ Hcmd) by done.
  rewrite !Hkeep by done. done.
Qed.

(** C8: two [plot] calls return the commands [c1] and [c2]; a later [fill]
    call is given them as [series1] and [series2], its transparency, if any,
    being a percentage.  Whatever other commands were appended in between,
    [fill] appends one command and nothing else to [self.plots], after
    every command that was there, the two plots' among them; the new command
    has type "fill" and its "series" and "series2" are the series the two
    plots were called with, not the plots' commands. *)
Theorem fill_after_plots self0 self1 self1' self2 self
    args1 kwargs1 (a1 : PlotArgs) c1 args2 kwargs2 (a2 : PlotArgs) c2
    args kwargs (af : FillArgs) between1 between2 :
  expand_plot args1 kwargs1 = Ok a1 ->
  RenderVM.plot styles expand_plot args1 kwargs1 self0 = (Ok (VDict c1), self1) ->
  RenderVM.plots (ext self1') = RenderVM.plots (ext self1) ++ between1 ->
  expand_plot args2 kwargs2 = Ok a2 ->
  RenderVM.plot styles expand_plot args2 kwargs2 self1' = (Ok (VDict c2), self2) ->
  RenderVM.plots (ext self) = RenderVM.plots (ext self2) ++ between2 ->
  expand_fill args kwargs = Ok af ->
  f_series1 af = c1 -> f_series2 af = c2 ->
  (forall z, f_transp af = Some z -> (0 <= z <= 100)%Z) ->
  exists cmd,
    RenderVM.fill expand_fill args kwargs self =
      (Ok (VDict cmd), RenderVM.append_plot (VDict cmd) self)
    /\ RenderVM.plots (ext (RenderVM.append_plot (VDict cmd) self)) =
         RenderVM.plots (ext self0) ++ [VDict c1] ++ between1 ++ [VDict c2] ++ between2
           ++ [VDict cmd]
    /\ dict_get "type" cmd = Some (VStr "fill")
    /\ dict_get "series" cmd = Some (p_series a1)
    /\ dict_get "series2" cmd = Some (p_series a2)
    /\ (RenderVM.fill expand_fill args kwargs self).2 = RenderVM.append_plot (VDict cmd) self.
Proof.
  intros He1 Hp1 Hb1 He2 Hp2 Hb2 Hef Hs1 Hs2 Htr.
  destruct (plot_result _ _ _ _ _ _ He1 Hp1) as [-> Hser1].
  destruct (plot_result _ _ _ _ _ _ He2 Hp2) as [-> Hser2].
  destruct (fill_command_ok af (p_series a1) (p_series a2)) as (cmd & Hcmd & Hty & Hg1 & Hg2);
    [by rewrite Hs1 | by rewrite Hs2 | done |].
  exists cmd. unfold RenderVM.fill. rewrite Hef, Hcmd. simpl.
  split; [done |]. split; [| by repeat (split; [done |])].
  rewrite Hb2. simpl. rewrite Hb1. simpl. by rewrite <- !app_assoc.
Qed.

End RenderFacts.

Lemma render_input_missing_key_witness :
  RenderVM.input no_conversions no_render_accessor parse_input_args_model
    [VInt 5] [] (renderer0 ∅) =
  (Raise (KeyError "input1"), RenderVM.set_input_idx 1 (renderer0 ∅)).
Proof.
  apply (render_input_missing_key no_conversions sample_styles no_render_accessor
           parse_input_args_model expand_plot_args_model expand_hline_args_model
           expand_fill_args_model (renderer0 ∅) [VInt 5] [] _ eq_refl).
  reflexivity.
Defined.



Lemma fill_after_plots_witness :
  exists cmd,
    RenderVM.fill expand_fill_args_model
      [VDict [("title", VStr "fast"); ("series", VSeries [VFloat 1%float])];
       VDict [("title", VStr "slow"); ("series", VSeries [VFloat 2%float])]] []
      (RenderVM.plot sample_styles expand_plot_args_model
         [VSeries [VFloat 2%float]; VStr "slow"] []
         (RenderVM.plot sample_styles expand_plot_args_model
            [VSeries [VFloat 1%float]; VStr "fast"] [] (renderer0 ∅)).2).2 =
    (Ok (VDict cmd),
     RenderVM.append_plot (VDict cmd)
       (RenderVM.plot sample_styles expand_plot_args_model
          [VSeries [VFloat 2%float]; VStr "slow"] []
          (RenderVM.plot sample_styles expand_plot_args_model
             [VSeries [VFloat 1%float]; VStr "fast"] [] (renderer0 ∅)).2).2)
    /\ dict_get "type" cmd = Some (VStr "fill")
    /\ dict_get "series" cmd = Some (VSeries [VFloat 1%float])
    /\ dict_get "series2" cmd = Some (VSeries [VFloat 2%float]).
Proof.
  pose (c1 := [("title", VStr "fast"); ("series", VSeries [VFloat 1%float])]).
  pose (c2 := [("title", VStr "slow"); ("series", VSeries [VFloat 2%float])]).
  pose (s1 := RenderVM.append_plot (VDict c1) (renderer0 ∅)).
  pose (s2 := RenderVM.append_plot (VDict c2) s1).
  destruct (fill_after_plots sample_styles expand_plot_args_model expand_fill_args_model
              (renderer0 ∅) s1 s1 s2 s2
              [VSeries [VFloat 1%float]; VStr "fast"] [] _ c1
              [VSeries [VFloat 2%float]; VStr "slow"] [] _ c2
              [VDict c1; VDict c2] [] _ [] []
              eq_refl eq_refl eq_refl eq_refl eq_refl eq_refl eq_refl eq_refl eq_refl)
    as (cmd & Hrun & _ & Hty & Hg1 & Hg2 & _).
  { intros z Hz. discriminate Hz. }
  exists cmd. split; [exact Hrun |]. split; [exact Hty |]. split; [exact Hg1 | exact Hg2].
Defined.

(** ** Scan, then render *)

Section RoundTrip.

Context {Node Market : Type}.
Variable conv : Conversions.
Variable accessor : nat -> M (VM Node Market RenderVM.Render) Value.
Variable parse : list Value -> list (string * Value) -> Result InputArgs.
Implicit Types (s : VM Node Market (list InputScanner.Descriptor)).
Implicit Types (r : VM Node Market RenderVM.Render).
Implicit Types (args : list Value) (kwargs : list (string * Value)) (a : InputArgs).

(** Both passes give the call the same title when the render pass has seen
    as many calls as the scan pass had. *)
Lemma titles_agree (inputs : list InputScanner.Descriptor) a :
  InputScanner.d_title (InputScanner.descriptor inputs a) =
  RenderVM.input_title (length inputs + 1) a.
Proof.
  unfold InputScanner.descriptor, RenderVM.input_title.
  by destruct (arg_typ a); [| destruct (InputScanner.infer (arg_defval a))].
Qed.

(** C4, as the code has it: a call is scanned and then rendered as the call
    of the same number, the stored value under the descriptor's title being
    the descriptor's recorded default, and the type the scan pass recorded
    is not "source".  The render pass returns the default converted to the
    type it uses: the given type when that is a non-empty string, the type
    inferred from the default otherwise.  That is the default itself when
    no type is given; when the empty string is given as type and the
    default is no market series; and when a non-empty type is given that is
    the one of the default's own kind (bool, integer, float) or converts
    nothing (any other than bool, integer, float and source).  With the
    types bool, integer and float given it is bool(default), int(default)
    and float(default).  With the empty string given as type and a market
    series as default, the render pass looks the stored series up as if it
    were a variable name, which raises TypeError. *)
Theorem round_trip s r args kwargs a :
  parse args kwargs = Ok a ->
  RenderVM.input_idx (ext r) = length (ext s) ->
  RenderVM.inputs (ext r) !! InputScanner.d_title (InputScanner.descriptor (ext s) a) =
    Some (InputScanner.d_defval (InputScanner.descriptor (ext s) a)) ->
  InputScanner.d_type (InputScanner.descriptor (ext s) a) <> "source" ->
  (InputScanner.input parse args kwargs s).1 = Ok (arg_defval a)
  /\ (arg_typ a = None ->
      RenderVM.input conv accessor parse args kwargs r =
        (Ok (arg_defval a), RenderVM.set_input_idx (RenderVM.input_idx (ext r) + 1) r))
  /\ (forall t,
        arg_typ a = Some t -> t <> "" ->
        RenderVM.input conv accessor parse args kwargs r =
          RenderVM.coerce conv accessor (Some t) (arg_defval a)
            (RenderVM.set_input_idx (RenderVM.input_idx (ext r) + 1) r))
  /\ (forall t,
        arg_typ a = Some t -> t <> "" ->
        (t = "bool" -> exists b, arg_defval a = VBool b) ->
        (t = "integer" -> exists z, arg_defval a = VInt z) ->
        (t = "float" -> exists f, arg_defval a = VFloat f) ->
        RenderVM.input conv accessor parse args kwargs r =
          (Ok (arg_defval a), RenderVM.set_input_idx (RenderVM.input_idx (ext r) + 1) r))
  /\ (arg_typ a = Some "" ->
      is_builtin_series (arg_defval a) = false ->
      RenderVM.input conv accessor parse args kwargs r =
        (Ok (arg_defval a), RenderVM.set_input_idx (RenderVM.input_idx (ext r) + 1) r))
  /\ RenderVM.input conv accessor parse args kwargs r =
       RenderVM.coerce conv accessor
         (if not_str (arg_typ a) then RenderVM.infer (arg_typ a) (arg_defval a)
          else arg_typ a)
         (arg_defval a)
         (RenderVM.set_input_idx (RenderVM.input_idx (ext r) + 1) r)
  /\ (arg_typ a = Some "bool" ->
      RenderVM.input conv accessor parse args kwargs r =
        (match py_bool conv (arg_defval a) with
         | Ok b => Ok (VBool b)
         | Raise e => Raise e
         end, RenderVM.set_input_idx (RenderVM.input_idx (ext r) + 1) r))
  /\ (arg_typ a = Some "integer" ->
      RenderVM.input conv accessor parse args kwargs r =
        (match py_int conv (arg_defval a) with
         | Ok z => Ok (VInt z)
         | Raise e => Raise e
         end, RenderVM.set_input_idx (RenderVM.input_idx (ext r) + 1) r))
  /\ (arg_typ a = Some "float" ->
      RenderVM.input conv accessor parse args kwargs r =
        (match py_float conv (arg_defval a) with
         | Ok f => Ok (VFloat f)
         | Raise e => Raise e
         end, RenderVM.set_input_idx (RenderVM.input_idx (ext r) + 1) r))
  /\ (arg_typ a = Some "" ->
      is_builtin_series (arg_defval a) = true ->
      RenderVM.input conv accessor parse args kwargs r =
        RenderVM.lookup_stored accessor (arg_defval a)
          (RenderVM.set_input_idx (RenderVM.input_idx (ext r) + 1) r)
      /\ (variable_tables r <> [] ->
          RenderVM.input conv accessor parse args kwargs r =
            (Raise TypeError, RenderVM.set_input_idx (RenderVM.input_idx (ext r) + 1) r))).
Proof.
  intros Hp Hidx Hstored Hsrc.
  assert (Hd : InputScanner.d_defval (InputScanner.descriptor (ext s) a) = arg_defval a).
  { unfold InputScanner.descriptor in *.
    destruct (arg_typ a) as [t |]; [done |].
    destruct (arg_defval a); simpl in *; done. }
  assert (Hgen : RenderVM.input conv accessor parse args kwargs r =
                 RenderVM.coerce conv accessor (RenderVM.render_type a) (arg_defval a)
                   (RenderVM.set_input_idx (RenderVM.input_idx (ext r) + 1) r)).
  { rewrite (render_input_run conv accessor parse r args kwargs a Hp).
    rewrite titles_agree, <- Hidx in Hstored. by rewrite Hstored, Hd. }
  assert (Hrun : forall t,
             RenderVM.render_type a = t ->
             RenderVM.input conv accessor parse args kwargs r =
               RenderVM.coerce conv accessor t (arg_defval a)
                 (RenderVM.set_input_idx (RenderVM.input_idx (ext r) + 1) r)).
  { intros t <-. exact Hgen. }
  assert (Hexplicit : forall t, arg_typ a = Some t -> t <> "" ->
                                RenderVM.render_type a = Some t).
  { intros t Htyp Hne. unfold RenderVM.render_type. rewrite Htyp. simpl.
    by rewrite bool_decide_eq_false_2. }
  assert (Hinferred : forall val,
             is_builtin_series val = false ->
             forall t0 r0,
               RenderVM.coerce conv accessor (RenderVM.infer t0 val) val r0 = (Ok val, r0)
               \/ RenderVM.infer t0 val = t0).
  { intros val Hval t0 r0. destruct val; simpl in *; try (by right); by left. }
  split; [unfold InputScanner.input; by rewrite Hp |].
  split.
  { intros Htyp. unfold InputScanner.descriptor in Hsrc. rewrite Htyp in Hsrc.
    rewrite (Hrun (RenderVM.infer None (arg_defval a))).
    - destruct (arg_defval a); try done; simpl in Hsrc; done.
    - unfold RenderVM.render_type. by rewrite Htyp. }
  split; [intros t Htyp Hne; apply Hrun; by apply Hexplicit |].
  split.
  { intros t Htyp Hne Hb Hi Hf.
    assert (Ht : t <> "source").
    { unfold InputScanner.descriptor in Hsrc. by rewrite Htyp in Hsrc. }
    rewrite (Hrun (Some t)) by (by apply Hexplicit).
    unfold RenderVM.coerce.
    destruct (decide (t = "bool")) as [-> | Hnb].
    { destruct (Hb eq_refl) as [b ->]. done. }
    rewrite (bool_decide_eq_false_2 (Some t = Some "bool")) by congruence.
    destruct (decide (t = "integer")) as [-> | Hni].
    { destruct (Hi eq_refl) as [z ->]. done. }
    rewrite (bool_decide_eq_false_2 (Some t = Some "integer")) by congruence.
    destruct (decide (t = "float")) as [-> | Hnf].
    { destruct (Hf eq_refl) as [f ->]. done. }
    rewrite (bool_decide_eq_false_2 (Some t = Some "float")) by congruence.
    by rewrite (bool_decide_eq_false_2 (Some t = Some "source")) by congruence. }
  split.
  { intros Htyp Hnb.
    rewrite (Hrun (RenderVM.infer (Some "") (arg_defval a))).
    - destruct (Hinferred (arg_defval a) Hnb (Some "")
                  (RenderVM.set_input_idx (RenderVM.input_idx (ext r) + 1) r))
        as [Hok | Hsame]; [done |].
      rewrite Hsame. done.
    - unfold RenderVM.render_type. by rewrite Htyp. }
  split; [exact Hgen |].
  split; [intros Htyp; by rewrite (Hrun (Some "bool")) by (by apply Hexplicit) |].
  split; [intros Htyp; by rewrite (Hrun (Some "integer")) by (by apply Hexplicit) |].
  split; [intros Htyp; by rewrite (Hrun (Some "float")) by (by apply Hexplicit) |].
  intros Htyp Hser.
  assert (Hlook : RenderVM.input conv accessor parse args kwargs r =
                  RenderVM.lookup_stored accessor (arg_defval a)
                    (RenderVM.set_input_idx (RenderVM.input_idx (ext r) + 1) r)).
  { rewrite (Hrun (Some "source")); [done |].
    unfold RenderVM.render_type. rewrite Htyp. simpl.
    by destruct (arg_defval a). }
  split; [exact Hlook |].
  intros Hts. rewrite Hlook.
  destruct (arg_defval a); try discriminate Hser. simpl.
  by destruct (variable_tables r).
Qed.

End RoundTrip.

Lemma round_trip_witness :
  RenderVM.input no_conversions no_render_accessor parse_input_args_model
    [VInt 5] [] (renderer0 {[ "input1" := VInt 5 ]}) =
  (Ok (VInt 5), RenderVM.set_input_idx 1 (renderer0 {[ "input1" := VInt 5 ]})).
Proof.
  assert (Hstored :
            RenderVM.inputs (ext (renderer0 {[ "input1" := VInt 5 ]})) !! "input1" =
            Some (VInt 5)) by reflexivity.
  assert (Htype : "integer" <> "source") by discriminate.
  pose proof (round_trip no_conversions no_render_accessor parse_input_args_model
                scanner0 (renderer0 {[ "input1" := VInt 5 ]}) [VInt 5] [] _
                eq_refl eq_refl Hstored Htype) as (_ & Hnone & _).
  exact (Hnone eq_refl).
Defined.

(** The default 2.5 declared with the type "integer": the scan pass records
    2.5 under "input1" with type "integer"; given that value back, the
    render pass returns the integer 2. *)
Lemma round_trip_counterexample :
  InputScanner.input parse_input_args_model
    [VFloat 2.5%float] [("type", VStr "integer")] scanner0 =
  (Ok (VFloat 2.5%float),
   set_ext [ {| InputScanner.d_defval := VFloat 2.5%float; InputScanner.d_title := "input1";
                InputScanner.d_type := "integer"; InputScanner.d_minval := VNone;
                InputScanner.d_maxval := VNone; InputScanner.d_options := VNone |} ]
           scanner0)
  /\ RenderVM.input no_conversions no_render_accessor parse_input_args_model
       [VFloat 2.5%float] [("type", VStr "integer")]
       (renderer0 {[ "input1" := VFloat 2.5%float ]}) =
     (Ok (VInt 2), RenderVM.set_input_idx 1 (renderer0 {[ "input1" := VFloat 2.5%float ]}))
  /\ VInt 2 <> VFloat 2.5%float.
Proof. split; [reflexivity | split; [vm_compute; reflexivity | discriminate]]. Qed.

(** * Further properties *)

(** ** Scopes *)

Section EnvFacts.

Context {Node Market Ext : Type}.
Variable accessor : nat -> M (VM Node Market Ext) Value.
Implicit Types (vm : VM Node Market Ext) (name : string) (v value : Value).
Implicit Types (t : gmap string Value) (ts outer inner : list (gmap string Value)).

Lemma find_binding_skip name inner_rev ts :
  Forall (fun s => s !! name = None) inner_rev ->
  find_binding name (inner_rev ++ ts) = find_binding name ts.
Proof. induction 1 as [| s l Hs _ IH]; simpl; [done |]. by rewrite Hs. Qed.

Lemma find_binding_unbound name ts :
  Forall (fun s => s !! name = None) ts -> find_binding name ts = None.
Proof. induction 1 as [| s l Hs _ IH]; simpl; [done |]. by rewrite Hs. Qed.

Lemma binding_innermost vm name outer t inner v :
  variable_tables vm = outer ++ t :: inner ->
  Forall (fun s => s !! name = None) inner ->
  t !! name = Some v ->
  binding name vm = Some v.
Proof.
  intros Hts Hinner Ht. unfold binding. rewrite Hts, rev_app_distr. simpl.
  rewrite <- app_assoc. rewrite find_binding_skip by (by apply Forall_rev).
  simpl. by rewrite Ht.
Qed.

Lemma lookup_variable_binding vm name :
  lookup_variable accessor name vm =
    match binding name vm with
    | Some (VFunction id) =>
        match accessor id vm with
        | (Raise NotImplementedError, vm') =>
            (Raise (PineError (VariableNotImplemented name)), vm')
        | out => out
        end
    | Some v => (Ok v, vm)
    | None => (Raise (PineError (VariableNotFound (VStr name))), vm)
    end.
Proof.
  unfold lookup_variable, binding.
  destruct (find_binding name (rev (variable_tables vm))) as [v |]; [| done].
  by destruct v.
Qed.

(** X1: [lookup_variable] returns the value of the innermost scope that binds
    the name, shadowed bindings further out being ignored, and leaves the
    machine alone; a name that no scope binds raises the "variable not
    found" PineError. *)
Theorem lookup_variable_innermost vm name :
  (forall outer t inner v,
      variable_tables vm = outer ++ t :: inner ->
      Forall (fun s => s !! name = None) inner ->
      t !! name = Some v ->
      isfunction v = false ->
      lookup_variable accessor name vm = (Ok v, vm))
  /\ (Forall (fun s => s !! name = None) (variable_tables vm) ->
      lookup_variable accessor name vm =
        (Raise (PineError (VariableNotFound (VStr name))), vm)).
Proof.
  split.
  - intros outer t inner v Hts Hinner Ht Hv.
    rewrite lookup_variable_binding, (binding_innermost _ _ _ _ _ _ Hts Hinner Ht).
    by destruct v.
  - intros Hnone. rewrite lookup_variable_binding. unfold binding.
    by rewrite find_binding_unbound by (by apply Forall_rev).
Qed.

(** X2: when the innermost binding of the name is a function, [lookup_variable]
    calls it on the machine and hands on what it returns and the machine it
    leaves; its NotImplementedError becomes the "variable is not
    implemented" PineError, any other exception passes unchanged. *)
Theorem lookup_variable_accessor vm name outer t inner id :
  variable_tables vm = outer ++ t :: inner ->
  Forall (fun s => s !! name = None) inner ->
  t !! name = Some (VFunction id) ->
  (forall r vm', accessor id vm = (Ok r, vm') ->
     lookup_variable accessor name vm = (Ok r, vm'))
  /\ (forall vm', accessor id vm = (Raise NotImplementedError, vm') ->
      lookup_variable accessor name vm =
        (Raise (PineError (VariableNotImplemented name)), vm'))
  /\ (forall e vm', accessor id vm = (Raise e, vm') -> e <> NotImplementedError ->
      lookup_variable accessor name vm = (Raise e, vm')).
Proof.
  intros Hts Hinner Ht.
  rewrite lookup_variable_binding, (binding_innermost _ _ _ _ _ _ Hts Hinner Ht).
  split; [| split].
  - intros r vm' Hacc. by rewrite Hacc.
  - intros vm' Hacc. by rewrite Hacc.
  - intros e vm' Hacc Hne. rewrite Hacc. by destruct e.
Qed.

Lemma nonempty_snoc ts : ts <> [] -> exists outer t, ts = outer ++ [t].
Proof.
  intros Hne. destruct (rev ts) as [| t l] eqn:Hrev.
  - apply (f_equal (@rev _)) in Hrev. rewrite rev_involutive in Hrev. done.
  - exists (rev l), t. apply (f_equal (@rev _)) in Hrev.
    by rewrite rev_involutive in Hrev.
Qed.

Lemma binding_top vm name outer t :
  variable_tables vm = outer ++ [t] ->
  binding name vm =
    match t !! name with
    | Some v => Some v
    | None => find_binding name (rev outer)
    end.
Proof. intros Hts. unfold binding. by rewrite Hts, rev_unit. Qed.

(** X3: on a machine with at least one scope, [define_variable] followed by
    [lookup_variable] of the same name returns the defined value, whatever
    the name was bound to before in this or an outer scope (the value not
    being a function, which a lookup would call). *)
Theorem define_then_lookup vm name value :
  variable_tables vm <> [] ->
  isfunction value = false ->
  exists vm',
    define_variable name value vm = (Ok tt, vm')
    /\ lookup_variable accessor name vm' = (Ok value, vm')
    /\ depth vm' = depth vm.
Proof.
  intros Hne Hv. destruct (nonempty_snoc _ Hne) as (outer & t & Hts).
  rewrite (define_variable_top _ _ _ _ _ Hts). eexists. split; [done |]. split.
  - rewrite lookup_variable_binding.
    rewrite (binding_top _ name outer (<[name := value]> t)) by done.
    rewrite lookup_insert_eq. by destruct value.
  - unfold depth. simpl. rewrite Hts, !length_app. done.
Qed.

(** X4: [define_variable] changes the innermost scope only: the outer scopes,
    the function table and the binding of every other name stay as they
    were. *)
Theorem define_variable_frame vm name value outer t :
  variable_tables vm = outer ++ [t] ->
  variable_tables (define_variable name value vm).2 = outer ++ [<[name := value]> t]
  /\ function_table (define_variable name value vm).2 = function_table vm
  /\ ext (define_variable name value vm).2 = ext vm
  /\ (forall m, m <> name ->
        binding m (define_variable name value vm).2 = binding m vm).
Proof.
  intros Hts. rewrite (define_variable_top _ _ _ _ _ Hts). simpl.
  repeat (split; [done |]). intros m Hm.
  rewrite (binding_top _ m outer (<[name := value]> t)) by done.
  rewrite (binding_top _ m outer t) by done.
  by rewrite lookup_insert_ne.
Qed.

(** X5: a scope that is pushed, filled by any number of [define_variable]
    calls and popped leaves the machine exactly as it was: what is defined
    in a scope is gone with it, and what it shadowed is visible again. *)
Theorem push_define_pop vm (kvs : list (string * Value)) :
  (push_scope ;;; for_each kvs (fun ka => define_variable ka.1 ka.2) ;;; pop_scope) vm =
    (Ok tt, vm).
Proof.
  unfold bind. simpl.
  rewrite (for_each_define kvs _ (variable_tables vm) ∅) by done.
  rewrite (pop_scope_top _ (variable_tables vm) (bound_scope ∅ kvs)) by done.
  by destruct vm.
Qed.

(** X6: the global scope is popped like any other, and on the empty stack
    that results [pop_scope] and [define_variable] raise IndexError, while
    [lookup_variable] and [assign_variable] report the name as not found;
    none of them changes the machine. *)
Theorem empty_stack vm g name value :
  variable_tables vm = [g] ->
  exists vm0,
    pop_scope vm = (Ok tt, vm0)
    /\ variable_tables vm0 = []
    /\ pop_scope vm0 = (Raise IndexError, vm0)
    /\ define_variable name value vm0 = (Raise IndexError, vm0)
    /\ lookup_variable accessor name vm0 =
         (Raise (PineError (VariableNotFound (VStr name))), vm0)
    /\ assign_variable name value vm0 =
         (Raise (PineError (VariableNotFoundToAssign name)), vm0).
Proof.
  intros Hts. exists (set_variable_tables [] vm).
  unfold pop_scope, define_variable, lookup_variable, assign_variable.
  rewrite Hts. simpl. done.
Qed.

End EnvFacts.

Lemma define_then_lookup_witness :
  exists vm',
    define_variable "x" (VStr "local") vm_two_scopes = (Ok tt, vm')
    /\ lookup_variable no_accessor_unit "x" vm' = (Ok (VStr "local"), vm').
Proof.
  destruct (define_then_lookup no_accessor_unit vm_two_scopes "x" (VStr "local"))
    as (vm' & Hdef & Hlook & _); [discriminate | reflexivity |].
  exists vm'. split; [exact Hdef | exact Hlook].
Defined.

Lemma lookup_variable_innermost_witness :
  lookup_variable no_accessor_unit "x" vm_two_scopes = (Ok (VInt 1), vm_two_scopes)
  /\ lookup_variable no_accessor_unit "y" vm_two_scopes =
     (Raise (PineError (VariableNotFound (VStr "y"))), vm_two_scopes).
Proof.
  split.
  - apply (proj1 (lookup_variable_innermost no_accessor_unit vm_two_scopes "x")
             [] sample_globals [∅] (VInt 1)).
    + reflexivity.
    + repeat constructor.
    + reflexivity.
    + reflexivity.
  - apply (proj2 (lookup_variable_innermost no_accessor_unit vm_two_scopes "y")).
    repeat constructor.
Defined.

Lemma lookup_variable_accessor_witness :
  lookup_variable sample_accessor "n" vm_accessors = (Ok (VInt 7), vm_accessors).
Proof.
  apply (proj1 (lookup_variable_accessor sample_accessor vm_accessors "n" []
                  {[ "n" := VFunction 0; "time" := VFunction 1 ]} [] 0%nat
                  eq_refl (List.Forall_nil _) eq_refl)).
  reflexivity.
Defined.

Lemma define_variable_frame_witness :
  binding "close" (define_variable "x" (VStr "local") vm_two_scopes).2 =
  binding "close" vm_two_scopes.
Proof.
  apply (define_variable_frame vm_two_scopes "x" (VStr "local") [sample_globals] ∅ eq_refl).
  discriminate.
Defined.

Lemma empty_stack_witness :
  exists vm0,
    pop_scope vm_accessors = (Ok tt, vm0)
    /\ define_variable "x" (VInt 1) vm0 = (Raise IndexError, vm0).
Proof.
  destruct (empty_stack sample_accessor vm_accessors _ "x" (VInt 1) eq_refl)
    as (vm0 & Hpop & _ & _ & Hdef & _).
  exists vm0. split; [exact Hpop | exact Hdef].
Defined.

(** ** Reassignment, continued *)

Section AssignFacts.

Context {Node Market Ext : Type}.
Variable accessor : nat -> M (VM Node Market Ext) Value.
Implicit Types (vm : VM Node Market Ext) (name : string) (v value : Value).
Implicit Types (t : gmap string Value) (ts : list (gmap string Value)).

Lemma kinds_compatible_refl k : kinds_compatible k k.
Proof. by left. Qed.

Lemma kinds_compatible_sym k1 k2 : kinds_compatible k1 k2 -> kinds_compatible k2 k1.
Proof. intros [-> | [H1 H2]]; [by left | by right]. Qed.

Lemma kinds_compatible_trans k1 k2 k3 :
  kinds_compatible k1 k2 -> kinds_compatible k2 k3 -> kinds_compatible k1 k3.
Proof.
  intros [-> | [H1 H2]] [-> | [H3 H4]]; try (by left); by right.
Qed.

(** What the loop of [assign_variable] does to the scopes: nothing at all,
    or the value put in the place of the first binding of the name. *)
Lemma assign_loop_cases name value ts :
  match assign_loop name value ts with
  | None => find_binding name ts = None
  | Some (r, ts') =>
      exists v0,
        find_binding name ts = Some v0
        /\ dom <$> ts' = dom <$> ts
        /\ length ts' = length ts
        /\ ((r = Ok value /\ compat v0 value = true
             /\ find_binding name ts' = Some value)
            \/ (r = Raise (PineError (InvalidTypeToAssign name value v0))
                /\ compat v0 value = false /\ ts' = ts))
  end.
Proof.
  induction ts as [| t ts IH]; simpl; [done |].
  destruct (t !! name) as [v0 |] eqn:Ht.
  - destruct (compat v0 value) eqn:Hc.
    + exists v0. split; [done |]. simpl. rewrite lookup_insert_eq.
      split; [| split; [done | left; done]].
      f_equal. apply dom_insert_lookup_L. by eexists.
    + exists v0. repeat (split; [done |]). right. done.
  - destruct (assign_loop name value ts) as [[r ts'] |]; [| done].
    destruct IH as (v0 & Hfind & Hdom & Hlen & Hcases).
    exists v0. split; [done |].
    split; [by rewrite !fmap_cons, Hdom |]. split; [simpl; by rewrite Hlen |].
    destruct Hcases as [(-> & Hc & Hf) | (-> & Hc & ->)]; [left | right];
      simpl; rewrite ?Ht; done.
Qed.

Lemma fmap_rev {A B} (f : A -> B) (l : list A) : f <$> rev l = rev (f <$> l).
Proof.
  induction l as [| x l IH]; simpl; [done |].
  by rewrite fmap_app, IH.
Qed.

(** X7: after an assignment that succeeded, [lookup_variable] of the name
    returns the assigned value (the value not being a function, which a
    lookup would call). *)
Theorem assign_then_lookup vm vm' name value r :
  assign_variable name value vm = (Ok r, vm') ->
  r = value
  /\ binding name vm' = Some value
  /\ (isfunction value = false -> lookup_variable accessor name vm' = (Ok value, vm')).
Proof.
  unfold assign_variable. intros Hrun.
  pose proof (assign_loop_cases name value (rev (variable_tables vm))) as Hcases.
  destruct (assign_loop name value (rev (variable_tables vm))) as [[r' ts'] |];
    [| discriminate].
  inversion Hrun; subst r' vm'.
  destruct Hcases as (v0 & _ & _ & _ & [(Hr & _ & Hfind) | (Hr & _)]); [| discriminate].
  inversion Hr; subst r.
  assert (Hb : binding name (set_variable_tables (rev ts') vm) = Some value).
  { unfold binding. simpl. by rewrite rev_involutive. }
  split; [done |]. split; [done |].
  intros Hv. rewrite lookup_variable_binding, Hb. by destruct value.
Qed.

(** X8: [assign_variable] never creates or removes a binding: whether it
    returns or raises, every scope binds the same names as before, the
    stack is as deep, and the function table and the other fields are
    untouched. *)
Theorem assign_variable_shape vm name value :
  dom <$> variable_tables (assign_variable name value vm).2 = dom <$> variable_tables vm
  /\ depth (assign_variable name value vm).2 = depth vm
  /\ function_table (assign_variable name value vm).2 = function_table vm
  /\ ext (assign_variable name value vm).2 = ext vm.
Proof.
  unfold assign_variable, depth.
  pose proof (assign_loop_cases name value (rev (variable_tables vm))) as Hcases.
  destruct (assign_loop name value (rev (variable_tables vm))) as [[r ts'] |];
    [| done].
  destruct Hcases as (v0 & _ & Hdom & Hlen & _). simpl.
  split; [| split; [| done]].
  - rewrite fmap_rev, Hdom, <- fmap_rev. by rewrite rev_involutive.
  - rewrite length_rev, Hlen, length_rev. done.
Qed.

Lemma assign_variable_binding vm name value v0 :
  binding name vm = Some v0 ->
  exists v1,
    binding name (assign_variable name value vm).2 = Some v1
    /\ kinds_compatible (type_of v0) (type_of v1).
Proof.
  unfold binding, assign_variable. intros Hb.
  pose proof (assign_loop_cases name value (rev (variable_tables vm))) as Hcases.
  destruct (assign_loop name value (rev (variable_tables vm))) as [[r ts'] |].
  - destruct Hcases as (v0' & Hfind & _ & _ & Hc). rewrite Hb in Hfind.
    inversion Hfind; subst v0'. simpl. rewrite rev_involutive.
    destruct Hc as [(_ & Hc & Hf) | (_ & _ & ->)].
    + exists value. split; [done |]. by apply compat_kinds.
    + exists v0. split; [done |]. apply kinds_compatible_refl.
  - exists v0. split; [done |]. apply kinds_compatible_refl.
Qed.

(** X9: through any sequence of assignments to a bound name, failed ones
    included, the name stays bound to a value of a kind compatible with the
    first one: a series stays a series, anything else keeps its exact
    kind. *)
Theorem assign_keeps_kind (vs : list Value) : forall vm name v0,
  binding name vm = Some v0 ->
  exists v,
    binding name (assign_all name vs vm) = Some v
    /\ kinds_compatible (type_of v0) (type_of v).
Proof.
  induction vs as [| value vs IH]; intros vm name v0 Hb; simpl.
  - exists v0. split; [done |]. apply kinds_compatible_refl.
  - destruct (assign_variable_binding vm name value v0 Hb) as (v1 & Hb1 & Hk1).
    destruct (IH _ name v1 Hb1) as (v & Hbv & Hk).
    exists v. split; [done |]. by apply (kinds_compatible_trans _ (type_of v1)).
Qed.

End AssignFacts.

Lemma assign_then_lookup_witness :
  lookup_variable no_accessor_unit "x" (assign_variable "x" (VInt 2) vm_two_scopes).2 =
  (Ok (VInt 2), (assign_variable "x" (VInt 2) vm_two_scopes).2).
Proof.
  apply (assign_then_lookup no_accessor_unit vm_two_scopes _ "x" (VInt 2) (VInt 2) eq_refl).
  reflexivity.
Defined.

Lemma assign_keeps_kind_witness :
  exists v,
    binding "close" (assign_all "close" [VInt 3; VSeries []; VStr "s"] vm_two_scopes) = Some v
    /\ kinds_compatible KBuiltinSeries (type_of v).
Proof.
  apply (assign_keeps_kind [VInt 3; VSeries []; VStr "s"] vm_two_scopes "close"
           (VBuiltinSeries "close" [VFloat 1%float]) eq_refl).
Defined.

(** ** Calls, continued *)

Section CallFacts.

Context {Node Market Ext : Type}.
Variable eval : Node -> M (VM Node Market Ext) Value.
Variable host_call :
  string -> list Value -> list (string * Value) -> M (VM Node Market Ext) Value.
Implicit Types (vm : VM Node Market Ext) (name fname n : string) (v value : Value).
Implicit Types (t : gmap string Value) (ts outer : list (gmap string Value)).
Implicit Types (names : list string) (args : list Value).
Implicit Types (kwargs kvs : list (string * Value)).

(** X10: for a host function [func_call] hands on the value and the machine
    the function leaves; of its exceptions, PineArgumentError and
    NotImplementedError become PineErrors that name the called function, so
    neither of the two ever leaves [func_call], and every other exception
    passes unchanged. *)
Theorem host_call_errors vm fname id args kwargs :
  function_table vm !! fname = Some (HostFunc id) ->
  (func_call eval host_call fname args kwargs vm).2 = (host_call id args kwargs vm).2
  /\ (forall r, (host_call id args kwargs vm).1 = Ok r ->
        (func_call eval host_call fname args kwargs vm).1 = Ok r)
  /\ (forall e, (host_call id args kwargs vm).1 = Raise (PineArgumentError e) ->
        (func_call eval host_call fname args kwargs vm).1 =
          Raise (PineError (ArgumentError e fname)))
  /\ ((host_call id args kwargs vm).1 = Raise NotImplementedError ->
      (func_call eval host_call fname args kwargs vm).1 =
        Raise (PineError (FunctionNotImplemented fname)))
  /\ (forall e, (host_call id args kwargs vm).1 = Raise e ->
        (forall msg, e <> PineArgumentError msg) -> e <> NotImplementedError ->
        (func_call eval host_call fname args kwargs vm).1 = Raise e)
  /\ (forall e, (func_call eval host_call fname args kwargs vm).1 <>
                  Raise (PineArgumentError e))
  /\ (func_call eval host_call fname args kwargs vm).1 <> Raise NotImplementedError.
Proof.
  intros Hf. unfold func_call. rewrite Hf.
  destruct (host_call id args kwargs vm) as [[r | e] vm']; [| destruct e]; simpl;
    repeat split; intros; simplify_eq/=; try done; naive_solver.
Qed.

(** X11: the call of a user-defined function whose formals are all bound hands
    on whatever the body returns or raises, unchanged: an exception of the
    body is never turned into a PineError, not even the two that are for a
    host function.  The machine is the one the body left, less its
    innermost scope. *)
Theorem user_call_outcome vm fname names node args kwargs r vm2 rest top :
  function_table vm !! fname = Some (UserFunc names node) ->
  (forall n, n ∈ names -> is_Some (bound_scope ∅ (zip names args ++ kwargs) !! n)) ->
  eval node
    (set_variable_tables
       (variable_tables vm ++ [bound_scope ∅ (zip names args ++ kwargs)]) vm) = (r, vm2) ->
  variable_tables vm2 = rest ++ [top] ->
  func_call eval host_call fname args kwargs vm = (r, set_variable_tables rest vm2).
Proof.
  intros Hf Hall Heval Hts.
  rewrite (func_call_user eval host_call _ _ _ _ _ _ Hf).
  rewrite (find_missing_None _ _ Hall).
  unfold try_finally. rewrite Heval. by rewrite (pop_scope_top _ _ _ Hts).
Qed.

Lemma bound_scope_lookup_other kvs : forall t n,
  n ∉ kvs.*1 -> bound_scope t kvs !! n = t !! n.
Proof.
  induction kvs as [| [k a] kvs IH]; intros t n Hn; simpl; [done |].
  simpl in Hn. apply not_elem_of_cons in Hn as [Hne Hn].
  rewrite IH by done. by rewrite lookup_insert_ne.
Qed.

Lemma zip_lookup names : forall args i n a,
  names !! i = Some n -> args !! i = Some a -> (n, a) ∈ zip names args.
Proof.
  induction names as [| n0 names IH]; intros [| a0 args] [| i] n a Hn Ha;
    simpl in *; try done.
  - inversion Hn; inversion Ha; subst. apply list_elem_of_here.
  - apply list_elem_of_further. by apply (IH args i).
Qed.

Lemma zip_NoDup names args : NoDup names -> NoDup (zip names args).*1.
Proof.
  intros Hnd. rewrite zip_fst.
  apply (sublist_NoDup _ names); [done | apply sublist_take].
Qed.

(** X12: with distinct formals, [_set_func_arguments] leaves the formal at a
    position bound in the innermost scope to the positional argument at that
    position unless a named argument has its name, whatever an outer scope
    binds the name to and whether or not another formal is missing.  In
    [func_call] of a user-defined function the binding is made in the scope
    the call has pushed: the body runs on the machine that
    [_set_func_arguments] leaves, where [lookup_variable] of the formal
    returns the argument (a value that is no function); if a formal is
    missing the call raises what [_set_func_arguments] raised and the body
    does not run. *)
Theorem positional_binding vm names args kwargs i n a :
  NoDup names ->
  names !! i = Some n ->
  args !! i = Some a ->
  n ∉ kwargs.*1 ->
  (forall outer t,
      variable_tables vm = outer ++ [t] ->
      binding n (_set_func_arguments names args kwargs vm).2 = Some a
      /\ exists t',
           variable_tables (_set_func_arguments names args kwargs vm).2 = outer ++ [t']
           /\ t' !! n = Some a)
  /\ binding n (_set_func_arguments names args kwargs (push_scope vm).2).2 = Some a
  /\ (forall accessor,
        isfunction a = false ->
        lookup_variable accessor n
          (_set_func_arguments names args kwargs (push_scope vm).2).2 =
        (Ok a, (_set_func_arguments names args kwargs (push_scope vm).2).2))
  /\ (forall fname node,
        function_table vm !! fname = Some (UserFunc names node) ->
        func_call eval host_call fname args kwargs vm =
          match _set_func_arguments names args kwargs (push_scope vm).2 with
          | (Ok _, vm1) => try_finally (eval node) pop_scope vm1
          | (Raise e, _) => (Raise e, vm)
          end).
Proof.
  intros Hnd Hn Ha Hkw.
  assert (Hscope : forall t, bound_scope t (zip names args ++ kwargs) !! n = Some a).
  { intros t. rewrite bound_scope_app, bound_scope_lookup_other by done.
    apply bound_scope_lookup_Some; [by apply zip_NoDup | by apply (zip_lookup _ _ i)]. }
  assert (Hdirect : forall vm0 outer t,
             variable_tables vm0 = outer ++ [t] ->
             binding n (_set_func_arguments names args kwargs vm0).2 = Some a
             /\ exists t',
                  variable_tables (_set_func_arguments names args kwargs vm0).2 = outer ++ [t']
                  /\ t' !! n = Some a).
  { intros vm0 outer t Hts.
    rewrite (_set_func_arguments_spec names args kwargs vm0 outer t Hts). simpl.
    split.
    - rewrite (binding_top _ n outer (bound_scope t (zip names args ++ kwargs))) by done.
      by rewrite Hscope.
    - exists (bound_scope t (zip names args ++ kwargs)). split; [done | apply Hscope]. }
  assert (Hpush : variable_tables (push_scope vm).2 = variable_tables vm ++ [∅]) by done.
  split; [exact (Hdirect vm) |].
  split; [exact (proj1 (Hdirect _ _ _ Hpush)) |].
  split.
  - intros accessor Hfun.
    pose proof (proj1 (Hdirect _ _ _ Hpush)) as Hb. unfold binding in Hb.
    unfold lookup_variable. by rewrite Hb, Hfun.
  - intros fname node Hf.
    rewrite (func_call_user eval host_call _ _ _ _ _ _ Hf).
    rewrite (_set_func_arguments_spec names args kwargs _ (variable_tables vm) ∅ Hpush).
    by destruct (find _ names).
Qed.

(** X13: [register_function] makes [func_call] of the name run the registered
    body as a user-defined function, whatever the name was registered for
    before, a host function included; a later registration of the name
    replaces an earlier one, and the entries of other names and the scopes
    are untouched. *)
Theorem register_then_call vm name arg_ids node args kwargs :
  function_table (register_function name arg_ids node vm).2 !! name =
    Some (UserFunc arg_ids node)
  /\ (forall fname, fname <> name ->
        function_table (register_function name arg_ids node vm).2 !! fname =
        function_table vm !! fname)
  /\ variable_tables (register_function name arg_ids node vm).2 = variable_tables vm
  /\ (forall arg_ids0 node0,
        (register_function name arg_ids node
           (register_function name arg_ids0 node0 vm).2).2 =
        (register_function name arg_ids node vm).2)
  /\ func_call eval host_call name args kwargs (register_function name arg_ids node vm).2 =
       match find (missing (bound_scope ∅ (zip arg_ids args ++ kwargs))) arg_ids with
       | Some n =>
           (Raise (PineError (MissingArgument n)), (register_function name arg_ids node vm).2)
       | None =>
           try_finally (eval node) pop_scope
             (set_variable_tables
                (variable_tables vm ++ [bound_scope ∅ (zip arg_ids args ++ kwargs)])
                (register_function name arg_ids node vm).2)
       end.
Proof.
  assert (Hf : function_table (register_function name arg_ids node vm).2 !! name =
               Some (UserFunc arg_ids node)).
  { simpl. apply lookup_insert_eq. }
  split; [done |]. split; [| split; [done | split]].
  - intros fname Hne. simpl. by rewrite lookup_insert_ne.
  - intros arg_ids0 node0. unfold register_function, set_function_table. simpl.
    by rewrite insert_insert_eq.
  - by rewrite (func_call_user eval host_call _ _ _ _ _ _ Hf).
Qed.

(** X14: when the body of a user-defined function, or the node given to
    [eval_node], touches no scope but the innermost one, the scopes after
    the call are exactly the scopes before it: neither the parameters nor
    anything the body defines outlives the call. *)
Theorem call_restores_scopes node :
  scope_local (eval node) ->
  forall vm,
    variable_tables (eval_node eval node vm).2 = variable_tables vm
    /\ (forall fname names args kwargs,
          function_table vm !! fname = Some (UserFunc names node) ->
          variable_tables (func_call eval host_call fname args kwargs vm).2 =
          variable_tables vm).
Proof.
  intros Hlocal vm. split.
  - rewrite (eval_node_unfold eval). unfold try_finally, bind.
    destruct (Hlocal (push_scope vm).2 (variable_tables vm) ∅ eq_refl) as [t' Ht'].
    destruct (eval node (push_scope vm).2) as [[r | e] vm1]; simpl in *;
      by rewrite (pop_scope_top _ _ _ Ht').
  - intros fname names args kwargs Hf.
    rewrite (func_call_user eval host_call _ _ _ _ _ _ Hf).
    destruct (find _ names) as [n |]; [done |].
    unfold try_finally.
    destruct (Hlocal (set_variable_tables
                        (variable_tables vm ++ [bound_scope ∅ (zip names args ++ kwargs)]) vm)
                (variable_tables vm) _ eq_refl) as [t' Ht'].
    destruct (eval node _) as [r vm1]; simpl in *.
    by rewrite (pop_scope_top _ _ _ Ht').
Qed.

End CallFacts.

Lemma var_eval_scope_local node : scope_local (var_eval node).
Proof. intros vm outer t Hts. exists t. by rewrite var_eval_state. Qed.

Lemma host_call_errors_witness :
  (func_call var_eval sample_host_call "sma" [] [] vm_with_host).1 =
    Raise (PineError (ArgumentError "Missing mandatory argument" "sma"))
  /\ (func_call var_eval sample_host_call "rsi" [] [] vm_with_host).1 =
    Raise (PineError (FunctionNotImplemented "rsi")).
Proof.
  pose proof (host_call_errors var_eval sample_host_call vm_with_host "sma" "sma" [] []
                eq_refl) as (_ & _ & Harg & _).
  pose proof (host_call_errors var_eval sample_host_call vm_with_host "rsi" "rsi" [] []
                eq_refl) as (_ & _ & _ & Hni & _).
  split; [apply Harg | apply Hni]; reflexivity.
Defined.

Lemma user_call_outcome_witness :
  func_call var_eval no_host_call "f" [VInt 1; VInt 2] [] vm_with_f = (Ok (VInt 2), vm_with_f).
Proof.
  apply (user_call_outcome var_eval no_host_call vm_with_f "f" ["a"; "b"] "b"
           [VInt 1; VInt 2] [] (Ok (VInt 2))
           (set_variable_tables [∅; bound_scope ∅ (zip ["a"; "b"] [VInt 1; VInt 2])] vm_with_f)
           [∅] (bound_scope ∅ (zip ["a"; "b"] [VInt 1; VInt 2])) eq_refl).
  - intros n Hn. apply elem_of_cons in Hn as [-> | Hn]; [by eexists |].
    apply elem_of_cons in Hn as [-> | Hn]; [by eexists |].
    by apply elem_of_nil in Hn.
  - reflexivity.
  - reflexivity.
Defined.

Lemma positional_binding_witness :
  binding "b"
    (_set_func_arguments ["a"; "b"] [VInt 1; VInt 2] [("c", VInt 3)]
       (push_scope vm_with_f).2).2 = Some (VInt 2)
  /\ func_call var_eval no_host_call "f" [VInt 1; VInt 2] [("c", VInt 3)] vm_with_f =
       match _set_func_arguments ["a"; "b"] [VInt 1; VInt 2] [("c", VInt 3)]
               (push_scope vm_with_f).2 with
       | (Ok _, vm1) => try_finally (var_eval "b") pop_scope vm1
       | (Raise e, _) => (Raise e, vm_with_f)
       end.
Proof.
  assert (Hnd : NoDup ["a"; "b"]).
  { apply NoDup_cons. split; [| apply NoDup_singleton].
    intros Hin. apply list_elem_of_singleton in Hin. discriminate. }
  assert (Hkw : "b" ∉ [("c", VInt 3)].*1).
  { simpl. intros Hin. apply list_elem_of_singleton in Hin. discriminate. }
  pose proof (positional_binding var_eval no_host_call vm_with_f ["a"; "b"]
                [VInt 1; VInt 2] [("c", VInt 3)] 1 "b" (VInt 2) Hnd eq_refl eq_refl Hkw)
    as (_ & Hb & _ & Hcall).
  split; [exact Hb | exact (Hcall "f" "b" eq_refl)].
Defined.

Lemma call_restores_scopes_witness :
  variable_tables (func_call var_eval no_host_call "f" [VInt 1; VInt 2] [] vm_with_f).2 =
  variable_tables vm_with_f.
Proof.
  apply (proj2 (call_restores_scopes var_eval no_host_call "b" (var_eval_scope_local "b")
                  vm_with_f) "f" ["a"; "b"]).
  reflexivity.
Defined.

(** ** Loading the builtins *)

Example replace_dunder_examples :
  replace_dunder "strategy__entry" = "strategy.entry"
  /\ replace_dunder "a___b" = "a._b"
  /\ replace_dunder "a____b" = "a..b"
  /\ replace_dunder "nz" = "nz".
Proof. repeat split. Qed.

Example endswith_examples :
  endswith "pine.vm.builtin_function" ".builtin_function" = true
  /\ endswith "inspect" ".builtin_function" = false
  /\ endswith "builtin_function" ".builtin_function" = false
  /\ endswith "abc" "" = true.
Proof. repeat split. Qed.

Lemma starts_with_underscore_replace s :
  starts_with_underscore s = false ->
  starts_with_underscore (replace_dunder s) = false.
Proof.
  destruct s as [| c [| c' rest]]; simpl; try done.
  intros Hc. by rewrite Hc.
Qed.

Lemma has_dunder_cons c s :
  has_dunder (String c s) =
    (Ascii.eqb c "_"%char && starts_with_underscore s) || has_dunder s.
Proof.
  destruct s as [| c' rest]; simpl; [| done].
  by rewrite andb_false_r.
Qed.

Lemma replace_dunder_no_dunder_aux s :
  has_dunder (replace_dunder s) = false
  /\ (forall c, has_dunder (replace_dunder (String c s)) = false).
Proof.
  induction s as [| c' rest [IH1 IH2]].
  - split; [done |]. intros c. done.
  - split; [apply IH2 |]. intros c.
    change (replace_dunder (String c (String c' rest))) with
      (if Ascii.eqb c "_"%char && Ascii.eqb c' "_"%char
       then String "."%char (replace_dunder rest)
       else String c (replace_dunder (String c' rest))).
    destruct (Ascii.eqb c "_"%char) eqn:Hc; destruct (Ascii.eqb c' "_"%char) eqn:Hc';
      cbn [andb].
    + rewrite has_dunder_cons, IH1. done.
    + rewrite has_dunder_cons, IH2, Hc.
      by rewrite starts_with_underscore_replace.
    + rewrite has_dunder_cons, IH2, Hc. done.
    + rewrite has_dunder_cons, IH2, Hc. done.
Qed.

Lemma undot_cons c s :
  undot (String c s) =
    if Ascii.eqb c "."%char then String "_"%char (String "_"%char (undot s))
    else String c (undot s).
Proof. done. Qed.

Lemma replace_dunder_undot_aux s :
  (no_dot s = true -> undot (replace_dunder s) = s)
  /\ (forall c, no_dot (String c s) = true ->
        undot (replace_dunder (String c s)) = String c s).
Proof.
  induction s as [| c' rest [IH1 IH2]].
  - split; [done |]. intros c Hc. simpl in *.
    rewrite andb_true_r in Hc. apply negb_true_iff in Hc. by rewrite Hc.
  - split; [apply IH2 |]. intros c Hnd.
    change (replace_dunder (String c (String c' rest))) with
      (if Ascii.eqb c "_"%char && Ascii.eqb c' "_"%char
       then String "."%char (replace_dunder rest)
       else String c (replace_dunder (String c' rest))).
    assert (Hc : Ascii.eqb c "."%char = false /\ no_dot (String c' rest) = true).
    { simpl in Hnd. apply andb_true_iff in Hnd as [H1 H2].
      apply negb_true_iff in H1. done. }
    destruct Hc as [Hc Hrest].
    destruct (Ascii.eqb c "_"%char && Ascii.eqb c' "_"%char) eqn:Hboth.
    + apply andb_true_iff in Hboth as [H1 H2].
      apply Ascii.eqb_eq in H1, H2. subst c c'. simpl.
      rewrite IH1; [done |]. simpl in Hrest. exact Hrest.
    + rewrite undot_cons, Hc. by rewrite IH2.
Qed.

Lemma replace_dunder_inj s1 s2 :
  no_dot s1 = true -> no_dot s2 = true ->
  replace_dunder s1 = replace_dunder s2 -> s1 = s2.
Proof.
  intros H1 H2 Heq.
  rewrite <- (proj1 (replace_dunder_undot_aux s1) H1).
  rewrite <- (proj1 (replace_dunder_undot_aux s2) H2).
  by rewrite Heq.
Qed.

Section LoadFacts.

Context {F : Type}.
Implicit Types (members : list (Member F)) (m : Member F) (dest : gmap string F).
Implicit Types (sfx n : string).

Lemma _load_builtins_cons m members sfx dest :
  _load_builtins (m :: members) sfx dest =
    _load_builtins members sfx
      (if loaded sfx m then <[replace_dunder (m_name m) := m_func m]> dest else dest).
Proof.
  unfold loaded. simpl.
  destruct (endswith (m_module m) sfx); simpl; [| done].
  by destruct (starts_with_underscore (m_name m)).
Qed.

Lemma _load_builtins_other members : forall sfx dest n,
  (forall m, m ∈ members -> loaded sfx m = true -> replace_dunder (m_name m) <> n) ->
  _load_builtins members sfx dest !! n = dest !! n.
Proof.
  induction members as [| m members IH]; intros sfx dest n Hother; [done |].
  rewrite _load_builtins_cons, IH.
  - destruct (loaded sfx m) eqn:Hl; [| done].
    rewrite lookup_insert_ne; [done |]. apply Hother; [apply list_elem_of_here | done].
  - intros m' Hm'. apply Hother. by apply list_elem_of_further.
Qed.

Lemma _load_builtins_app members1 : forall members2 sfx dest,
  _load_builtins (members1 ++ members2) sfx dest =
  _load_builtins members2 sfx (_load_builtins members1 sfx dest).
Proof.
  induction members1 as [| m members1 IH]; intros members2 sfx dest; [done |].
  rewrite <- app_comm_cons, !_load_builtins_cons. apply IH.
Qed.

Lemma _load_builtins_origin members : forall sfx dest n f,
  _load_builtins members sfx dest !! n = Some f ->
  dest !! n = Some f
  \/ exists m,
       m ∈ members
       /\ endswith (m_module m) sfx = true
       /\ starts_with_underscore (m_name m) = false
       /\ n = replace_dunder (m_name m)
       /\ f = m_func m.
Proof.
  induction members as [| m members IH]; intros sfx dest n f Hl; [by left |].
  rewrite _load_builtins_cons in Hl. apply IH in Hl as [Hl | (m' & Hin & Hrest)].
  - destruct (loaded sfx m) eqn:Hload; [| by left].
    destruct (decide (replace_dunder (m_name m) = n)) as [<- | Hne].
    + rewrite lookup_insert_eq in Hl. inversion Hl; subst f.
      unfold loaded in Hload. apply andb_true_iff in Hload as [H1 H2].
      apply negb_true_iff in H2.
      right. exists m. split; [apply list_elem_of_here | done].
    + rewrite lookup_insert_ne in Hl by done. by left.
  - right. exists m'. split; [by apply list_elem_of_further | done].
Qed.

(** X15: whatever [_load_builtins] puts into the table is a function of the
    module that is not private, under its name with each "__" turned into
    a dot; a name under which no such function of the module goes is left
    as it was, bound or unbound, so functions imported from other modules
    and names that begin with an underscore are never registered; and a
    function of the module that is not private is registered under its
    dotted name, and stays there unless a later member goes under the same
    name. *)
Theorem _load_builtins_sound members sfx dest n :
  (forall f,
      _load_builtins members sfx dest !! n = Some f ->
      dest !! n = Some f
      \/ exists m,
           m ∈ members
           /\ endswith (m_module m) sfx = true
           /\ starts_with_underscore (m_name m) = false
           /\ n = replace_dunder (m_name m)
           /\ f = m_func m)
  /\ ((forall m, m ∈ members ->
         endswith (m_module m) sfx = true ->
         starts_with_underscore (m_name m) = false ->
         replace_dunder (m_name m) <> n) ->
      _load_builtins members sfx dest !! n = dest !! n)
  /\ (forall before m after,
        members = before ++ m :: after ->
        endswith (m_module m) sfx = true ->
        starts_with_underscore (m_name m) = false ->
        n = replace_dunder (m_name m) ->
        (forall m', m' ∈ after ->
           endswith (m_module m') sfx = true ->
           starts_with_underscore (m_name m') = false ->
           replace_dunder (m_name m') <> n) ->
        _load_builtins members sfx dest !! n = Some (m_func m)).
Proof.
  assert (Hloaded : forall m, loaded sfx m = true ->
            endswith (m_module m) sfx = true /\ starts_with_underscore (m_name m) = false).
  { intros m Hl. unfold loaded in Hl. apply andb_true_iff in Hl as [H1 H2].
    by apply negb_true_iff in H2. }
  split; [intros f; apply _load_builtins_origin |]. split.
  - intros Hother. apply _load_builtins_other.
    intros m Hin Hl. destruct (Hloaded m Hl). by apply Hother.
  - intros before m after -> Hmod Hpub -> Hlater.
    rewrite _load_builtins_app, _load_builtins_cons.
    unfold loaded at 1. rewrite Hmod, Hpub. simpl.
    rewrite _load_builtins_other; [apply lookup_insert_eq |].
    intros m' Hin Hl. destruct (Hloaded m' Hl). by apply Hlater.
Qed.

(** X16: a name that [_load_builtins] registers in an empty table does not
    begin with an underscore and has no two underscores in a row. *)
Theorem _load_builtins_names members sfx n :
  is_Some (_load_builtins members sfx ∅ !! n) ->
  starts_with_underscore n = false /\ has_dunder n = false.
Proof.
  intros [f Hl]. apply _load_builtins_origin in Hl as [Hl | (m & _ & _ & Hpub & -> & _)].
  - by rewrite lookup_empty in Hl.
  - split; [by apply starts_with_underscore_replace |].
    apply replace_dunder_no_dunder_aux.
Qed.

(** X17: the members of a module have distinct names without dots, so no two
    of them are registered under one name: every function of the module
    that is not private is found in the table under its dotted name. *)
Theorem _load_builtins_complete members : forall sfx dest m,
  NoDup (m_name <$> members) ->
  (forall m', m' ∈ members -> no_dot (m_name m') = true) ->
  m ∈ members ->
  endswith (m_module m) sfx = true ->
  starts_with_underscore (m_name m) = false ->
  _load_builtins members sfx dest !! replace_dunder (m_name m) = Some (m_func m).
Proof.
  induction members as [| m0 members IH]; intros sfx dest m Hnd Hdots Hin Hmod Hpub.
  - by apply elem_of_nil in Hin.
  - rewrite fmap_cons in Hnd. apply NoDup_cons in Hnd as [Hfresh Hnd].
    rewrite _load_builtins_cons.
    apply elem_of_cons in Hin as [-> | Hin].
    + unfold loaded. rewrite Hmod, Hpub. simpl.
      rewrite _load_builtins_other; [apply lookup_insert_eq |].
      intros m' Hm' _ Heq. apply Hfresh.
      apply replace_dunder_inj in Heq.
      * rewrite <- Heq. by apply list_elem_of_fmap_2.
      * apply Hdots. by apply list_elem_of_further.
      * apply Hdots. apply list_elem_of_here.
    + apply IH; try done.
      intros m' Hm'. apply Hdots. by apply list_elem_of_further.
Qed.

End LoadFacts.

Lemma _load_builtins_sound_witness :
  _load_builtins sample_functions ".builtin_function" (∅ : gmap string string)
    !! "strategy.entry" = Some "strategy__entry"
  /\ _load_builtins sample_functions ".builtin_function" (∅ : gmap string string)
       !! "isfunction" = None.
Proof.
  pose proof (_load_builtins_sound sample_functions ".builtin_function"
                (∅ : gmap string string) "strategy.entry") as (_ & _ & Hlast).
  pose proof (_load_builtins_sound sample_functions ".builtin_function"
                (∅ : gmap string string) "isfunction") as (_ & Hframe & _).
  split.
  - apply (Hlast
             [ {| m_name := "_expand_args"; m_module := "pine.vm.builtin_function";
                  m_func := "_expand_args" |};
               {| m_name := "abs"; m_module := "pine.vm.builtin_function";
                  m_func := "abs" |};
               {| m_name := "isfunction"; m_module := "inspect";
                  m_func := "isfunction" |} ]
             {| m_name := "strategy__entry"; m_module := "pine.vm.builtin_function";
                m_func := "strategy__entry" |} []); try reflexivity.
    intros m' Hin. by apply elem_of_nil in Hin.
  - rewrite Hframe; [reflexivity |].
    intros m Hin Hmod Hpub.
    repeat (apply elem_of_cons in Hin as [-> | Hin]; [by vm_compute in Hmod, Hpub |- * |]).
    by apply elem_of_nil in Hin.
Defined.

Lemma _load_builtins_names_witness :
  starts_with_underscore "strategy.entry" = false /\ has_dunder "strategy.entry" = false.
Proof.
  apply (_load_builtins_names sample_functions ".builtin_function").
  exists "strategy__entry". reflexivity.
Defined.

Lemma _load_builtins_complete_witness :
  _load_builtins sample_functions ".builtin_function" ∅ !! "strategy.entry" =
  Some "strategy__entry".
Proof.
  apply (_load_builtins_complete sample_functions ".builtin_function" ∅
           {| m_name := "strategy__entry"; m_module := "pine.vm.builtin_function";
              m_func := "strategy__entry" |}).
  - apply (bool_decide_unpack (NoDup (m_name <$> sample_functions))). vm_compute. reflexivity.
  - intros m' Hm'. repeat (apply elem_of_cons in Hm' as [-> | Hm']; [reflexivity |]).
    by apply elem_of_nil in Hm'.
  - do 3 apply list_elem_of_further. apply list_elem_of_here.
  - reflexivity.
  - reflexivity.
Defined.

(** ** Drawing calls, continued *)

Section DrawFacts.

Context {Node Market : Type}.
Variable styles : Styles.
Variable expand_plot : list Value -> list (string * Value) -> Result PlotArgs.
Variable expand_hline : list Value -> list (string * Value) -> Result HlineArgs.
Variable expand_fill : list Value -> list (string * Value) -> Result FillArgs.
Implicit Types (self : VM Node Market RenderVM.Render).
Implicit Types (args : list Value) (kwargs : list (string * Value)).
Implicit Types (plot cmd : list (string * Value)).

(** X18: [plot], [hline] and [fill] only ever append: a call that returns has
    put the command it returns at the end of [self.plots], a call that
    raises has put nothing there, and in both cases the commands already
    there, the scopes, the function table, the stored inputs and the input
    counter are as before. *)
Theorem drawing_calls_append self args kwargs :
  drawn self (RenderVM.plot styles expand_plot args kwargs self)
  /\ drawn self (RenderVM.hline expand_hline args kwargs self)
  /\ drawn self (RenderVM.fill expand_fill args kwargs self).
Proof.
  unfold drawn, RenderVM.plot, RenderVM.hline, RenderVM.fill.
  split; [| split].
  - destruct (expand_plot args kwargs) as [a |]; [| done].
    by destruct (RenderVM.plot_command styles a).
  - by destruct (expand_hline args kwargs) as [a |].
  - destruct (expand_fill args kwargs) as [a |]; [| done].
    by destruct (RenderVM.fill_command a).
Qed.

Lemma with_alpha_percent tr plot :
  (forall z, tr = Some z -> (0 <= z <= 100)%Z) ->
  exists cmd, RenderVM.with_alpha tr plot = Ok cmd.
Proof.
  intros Htr. unfold RenderVM.with_alpha. destruct tr as [z |]; [| by eexists].
  destruct (truthy_int (Some z)); [| by eexists].
  unfold alpha_of. destruct (float_of_int_percent z (Htr z eq_refl)) as [f Hf].
  rewrite Hf. by eexists.
Qed.

Lemma plot_run self args kwargs (a : PlotArgs) cmd :
  expand_plot args kwargs = Ok a ->
  RenderVM.plot_command styles a = Ok cmd ->
  RenderVM.plot styles expand_plot args kwargs self =
    (Ok (VDict cmd), RenderVM.append_plot (VDict cmd) self).
Proof. intros He Hc. unfold RenderVM.plot. by rewrite He, Hc. Qed.

(** The keys that the colour, the width and the transparency do not
    touch are as the style left them. *)
Lemma plot_command_key (a : PlotArgs) cmd k :
  RenderVM.plot_command styles a = Ok cmd ->
  k <> "color" -> k <> "width" -> k <> "alpha" ->
  dict_get k cmd =
    dict_get k (RenderVM.with_style styles (p_style a)
                  [("title", VStr (p_title a)); ("series", p_series a)]).
Proof.
  unfold RenderVM.plot_command. intros Hcmd Hc Hw Ha.
  destruct (RenderVM.with_color (p_color a) _) as [plot1 |] eqn:Hcol; [| done].
  rewrite (with_alpha_keeps _ _ _ k Hcmd) by done.
  rewrite with_width_keeps by done.
  by rewrite (with_color_keeps _ _ _ k Hcol).
Qed.

Lemma plot_command_color (a : PlotArgs) cmd plot1 :
  RenderVM.with_color (p_color a)
    (RenderVM.with_style styles (p_style a)
       [("title", VStr (p_title a)); ("series", p_series a)]) = Ok plot1 ->
  RenderVM.plot_command styles a = Ok cmd ->
  dict_get "color" cmd = dict_get "color" plot1.
Proof.
  unfold RenderVM.plot_command. intros Hcol Hcmd. rewrite Hcol in Hcmd.
  rewrite (with_alpha_keeps _ _ _ "color" Hcmd) by done.
  by rewrite with_width_keeps.
Qed.

Lemma with_style_color st plot :
  dict_get "color" (RenderVM.with_style styles st plot) = dict_get "color" plot.
Proof.
  unfold RenderVM.with_style. destruct st as [z |]; [| done].
  destruct (truthy_int (Some z)); [| done].
  destruct (RenderVM.style_type styles z) as [typ [m |]];
    by rewrite !dict_get_set_ne.
Qed.

(** X19: the colour of a [plot] command, its transparency being a percentage
    or left out: a colour given as a series is recorded as the last sample
    of the series, any other colour as it is, and no colour gives no
    "color" key; a colour series without samples makes the call raise
    IndexError and append nothing. *)
Theorem plot_color self args kwargs (a : PlotArgs) :
  expand_plot args kwargs = Ok a ->
  (forall z, p_transp a = Some z -> (0 <= z <= 100)%Z) ->
  (forall c, p_color a <> VNone -> resolve_color (p_color a) = Ok c ->
     exists cmd,
       RenderVM.plot styles expand_plot args kwargs self =
         (Ok (VDict cmd), RenderVM.append_plot (VDict cmd) self)
       /\ dict_get "color" cmd = Some c)
  /\ (p_color a = VNone ->
      exists cmd,
        RenderVM.plot styles expand_plot args kwargs self =
          (Ok (VDict cmd), RenderVM.append_plot (VDict cmd) self)
        /\ dict_get "color" cmd = None)
  /\ (forall samples c, last samples = Some c ->
        resolve_color (VSeries samples) = Ok c
        /\ forall name, resolve_color (VBuiltinSeries name samples) = Ok c)
  /\ ((p_color a = VSeries [] \/ exists name, p_color a = VBuiltinSeries name []) ->
      RenderVM.plot styles expand_plot args kwargs self = (Raise IndexError, self)).
Proof.
  intros He Htr.
  set (base := RenderVM.with_style styles (p_style a)
                 [("title", VStr (p_title a)); ("series", p_series a)]).
  split; [| split; [| split]].
  - intros c Hnone Hc.
    assert (Hcol : RenderVM.with_color (p_color a) base = Ok (dict_set "color" c base)).
    { unfold RenderVM.with_color. destruct (p_color a); try done; by rewrite Hc. }
    destruct (with_alpha_percent (p_transp a)
                (RenderVM.with_width (p_linewidth a) (dict_set "color" c base)) Htr)
      as [cmd Hcmd].
    assert (Hpc : RenderVM.plot_command styles a = Ok cmd).
    { unfold RenderVM.plot_command. fold base. by rewrite Hcol. }
    exists cmd. split; [by apply (plot_run self args kwargs a) |].
    rewrite (plot_command_color a cmd _ Hcol Hpc). apply dict_get_set_eq.
  - intros Hnone.
    assert (Hcol : RenderVM.with_color (p_color a) base = Ok base).
    { unfold RenderVM.with_color. by rewrite Hnone. }
    destruct (with_alpha_percent (p_transp a)
                (RenderVM.with_width (p_linewidth a) base) Htr) as [cmd Hcmd].
    assert (Hpc : RenderVM.plot_command styles a = Ok cmd).
    { unfold RenderVM.plot_command. fold base. by rewrite Hcol. }
    exists cmd. split; [by apply (plot_run self args kwargs a) |].
    rewrite (plot_command_color a cmd _ Hcol Hpc). unfold base.
    by rewrite with_style_color.
  - intros samples c Hlast. simpl. by rewrite Hlast.
  - intros Hempty. unfold RenderVM.plot, RenderVM.plot_command. rewrite He.
    fold base. unfold RenderVM.with_color.
    by destruct Hempty as [-> | [name ->]].
Qed.

(** X20: the style of a [plot] command: without a style, or with the style 0,
    the command has no "type" and no "mark" key; with any other style its
    "type" is one of line, bar, marker and band, and it has a "mark", "+"
    or "o", exactly when the type is marker. *)
Theorem plot_style (a : PlotArgs) cmd :
  RenderVM.plot_command styles a = Ok cmd ->
  ((p_style a = None \/ p_style a = Some 0%Z) ->
   dict_get "type" cmd = None /\ dict_get "mark" cmd = None)
  /\ (forall z, p_style a = Some z -> z <> 0%Z ->
        (dict_get "type" cmd = Some (VStr "marker")
         /\ (dict_get "mark" cmd = Some (VStr "+") \/ dict_get "mark" cmd = Some (VStr "o")))
        \/ ((dict_get "type" cmd = Some (VStr "line")
             \/ dict_get "type" cmd = Some (VStr "bar")
             \/ dict_get "type" cmd = Some (VStr "band"))
            /\ dict_get "mark" cmd = None)).
Proof.
  intros Hcmd.
  rewrite (plot_command_key a cmd "type" Hcmd) by done.
  rewrite (plot_command_key a cmd "mark" Hcmd) by done.
  split.
  - intros [-> | ->]; done.
  - intros z -> Hz. unfold RenderVM.with_style, truthy_int.
    apply Z.eqb_neq in Hz. rewrite Hz. simpl negb. cbv iota.
    unfold RenderVM.style_type.
    repeat (destruct (_ =? _)%Z; [vm_compute; naive_solver |]).
    vm_compute; naive_solver.
Qed.

(** X21: [hline] never raises once its arguments validate: it appends and
    returns a command of type "hline" whose "series" is the price and
    whose "title" is the title or None; the command has a "color" exactly
    when a non-empty colour is given, a "width" exactly when a non-zero
    width is given, and never an "alpha" or a "mark". *)
Theorem hline_command_spec self args kwargs (a : HlineArgs) :
  expand_hline args kwargs = Ok a ->
  exists cmd,
    RenderVM.hline expand_hline args kwargs self =
      (Ok (VDict cmd), RenderVM.append_plot (VDict cmd) self)
    /\ dict_get "type" cmd = Some (VStr "hline")
    /\ dict_get "series" cmd = Some (VFloat (h_price a))
    /\ dict_get "title" cmd = Some (opt_str_value (h_title a))
    /\ dict_get "color" cmd =
         (if not_str (h_color a) then None else opt_str_value <$> Some (h_color a))
    /\ dict_get "width" cmd =
         (if truthy_int (h_linewidth a) then VInt <$> h_linewidth a else None)
    /\ dict_get "alpha" cmd = None
    /\ dict_get "mark" cmd = None.
Proof.
  intros He. exists (RenderVM.hline_command a).
  unfold RenderVM.hline. rewrite He. split; [done |].
  unfold RenderVM.hline_command, RenderVM.with_width, truthy_int, not_str.
  destruct (h_color a) as [c |]; [destruct (bool_decide (c = "")) |];
    (destruct (h_linewidth a) as [z |]; [destruct (z =? 0)%Z |]);
    repeat split; reflexivity.
Qed.

(** X22: [fill] reads the "series" of the two dicts it is given: a dict
    without that key makes it raise KeyError("series") and append nothing;
    given the commands of two [hline] calls, its "series" and "series2"
    are the two prices. *)
Theorem fill_series_keys self args kwargs (af : FillArgs) :
  expand_fill args kwargs = Ok af ->
  ((dict_get "series" (f_series1 af) = None \/ dict_get "series" (f_series2 af) = None) ->
   RenderVM.fill expand_fill args kwargs self = (Raise (KeyError "series"), self))
  /\ (forall (h1 h2 : HlineArgs),
        f_series1 af = RenderVM.hline_command h1 ->
        f_series2 af = RenderVM.hline_command h2 ->
        (forall z, f_transp af = Some z -> (0 <= z <= 100)%Z) ->
        exists cmd,
          RenderVM.fill expand_fill args kwargs self =
            (Ok (VDict cmd), RenderVM.append_plot (VDict cmd) self)
          /\ dict_get "series" cmd = Some (VFloat (h_price h1))
          /\ dict_get "series2" cmd = Some (VFloat (h_price h2))).
Proof.
  intros He. split.
  - intros Hmiss. unfold RenderVM.fill, RenderVM.fill_command. rewrite He.
    destruct (dict_get "series" (f_series1 af)) as [s1 |]; [| done].
    destruct Hmiss as [Hm | Hm]; [done |]. by rewrite Hm.
  - intros h1 h2 H1 H2 Htr.
    assert (Hs : forall h, dict_get "series" (RenderVM.hline_command h) =
                           Some (VFloat (h_price h))).
    { intros h. unfold RenderVM.hline_command. rewrite with_width_keeps by done.
      destruct (h_color h) as [c |]; simpl; [destruct (bool_decide (c = "")) |]; done. }
    destruct (fill_command_ok af (VFloat (h_price h1)) (VFloat (h_price h2)))
      as (cmd & Hcmd & _ & Hg1 & Hg2); [by rewrite H1 | by rewrite H2 | done |].
    exists cmd. unfold RenderVM.fill. rewrite He, Hcmd. done.
Qed.

End DrawFacts.

Lemma alpha_of_percent z :
  (1 <= z <= 100)%Z ->
  exists f,
    alpha_of z = Ok (VFloat f)
    /\ PrimFloat.ltb 0%float f = true
    /\ PrimFloat.leb f 1%float = true.
Proof.
  intros Hz.
  assert (Hall : forallb (fun n => match alpha_of (Z.of_nat n) with
                                   | Ok (VFloat f) =>
                                       PrimFloat.ltb 0%float f && PrimFloat.leb f 1%float
                                   | _ => false
                                   end) (seq 1 100) = true) by (vm_compute; reflexivity).
  rewrite forallb_forall in Hall.
  specialize (Hall (Z.to_nat z)). rewrite Z2Nat.id in Hall by lia.
  destruct (alpha_of z) as [[| | | f | | | | | |] |];
    try (discriminate Hall; apply in_seq; lia).
  exists f. split; [done |]. apply andb_true_iff. apply Hall. apply in_seq. lia.
Qed.

(** ** The render pass, continued *)

Section RenderInputFacts.

Context {Node Market : Type}.
Variable conv : Conversions.
Variable styles : Styles.
Variable accessor : nat -> M (VM Node Market RenderVM.Render) Value.
Variable parse : list Value -> list (string * Value) -> Result InputArgs.
Variable expand_plot : list Value -> list (string * Value) -> Result PlotArgs.
Variable expand_hline : list Value -> list (string * Value) -> Result HlineArgs.
Variable expand_fill : list Value -> list (string * Value) -> Result FillArgs.
Implicit Types (s : VM Node Market (list InputScanner.Descriptor)).
Implicit Types (r self : VM Node Market RenderVM.Render).
Implicit Types (args : list Value) (kwargs : list (string * Value)) (a : InputArgs).

(** X23: the opacity of a [plot] command whose transparency is a percentage:
    the transparency 0 leaves the command without an "alpha" key, as if
    none were given, and every transparency from 1 to 100 gives an "alpha"
    that is a double above 0 and at most 1. *)
Theorem plot_alpha_range self args kwargs (pa : PlotArgs) c z :
  expand_plot args kwargs = Ok pa ->
  resolve_color (p_color pa) = Ok c ->
  p_transp pa = Some z ->
  (0 <= z <= 100)%Z ->
  exists cmd,
    RenderVM.plot styles expand_plot args kwargs self =
      (Ok (VDict cmd), RenderVM.append_plot (VDict cmd) self)
    /\ (z = 0%Z -> dict_get "alpha" cmd = None)
    /\ (z <> 0%Z ->
        exists f,
          dict_get "alpha" cmd = Some (VFloat f)
          /\ PrimFloat.ltb 0%float f = true
          /\ PrimFloat.leb f 1%float = true).
Proof.
  intros He Hc Htr Hz. unfold RenderVM.plot, RenderVM.plot_command. rewrite He.
  destruct (with_color_ok (p_color pa) c
              (RenderVM.with_style styles (p_style pa)
                 [("title", VStr (p_title pa)); ("series", p_series pa)]) Hc)
    as (plot1 & Hcol & Hkeep).
  rewrite Hcol, Htr. unfold RenderVM.with_alpha, truthy_int.
  destruct (z =? 0)%Z eqn:Hz0; simpl.
  - eexists. split; [done |]. apply Z.eqb_eq in Hz0. split; [| done].
    intros _. rewrite with_width_keeps, Hkeep, with_style_alpha by done. done.
  - apply Z.eqb_neq in Hz0.
    destruct (alpha_of_percent z) as (f & Hf & Hlo & Hhi); [lia |].
    rewrite Hf. eexists. split; [done |]. split; [done |].
    intros _. exists f. by rewrite dict_get_set_eq.
Qed.

Lemma coerce_state (t : option string) val r :
  t <> Some "source" -> (RenderVM.coerce conv accessor t val r).2 = r.
Proof.
  intros Ht. unfold RenderVM.coerce.
  destruct (bool_decide (t = Some "bool")); [reflexivity |].
  destruct (bool_decide (t = Some "integer")); [reflexivity |].
  destruct (bool_decide (t = Some "float")); [reflexivity |].
  rewrite bool_decide_eq_false_2 by exact Ht. reflexivity.
Qed.

Lemma render_input_state r args kwargs a :
  parse args kwargs = Ok a ->
  RenderVM.render_type a <> Some "source" ->
  (RenderVM.input conv accessor parse args kwargs r).2 =
    RenderVM.set_input_idx (RenderVM.input_idx (ext r) + 1) r.
Proof.
  intros Hp Ht. rewrite (render_input_run conv accessor parse r args kwargs a Hp).
  destruct (RenderVM.inputs (ext r) !! _) as [val |]; [| done].
  by apply coerce_state.
Qed.

Lemma render_input_parse_error r args kwargs e :
  parse args kwargs = Raise e ->
  RenderVM.input conv accessor parse args kwargs r = (Raise e, r).
Proof. intros Hp. unfold RenderVM.input. by rewrite Hp. Qed.

(** X24: the two passes number the [input] calls alike.  A call of the render
    pass whose arguments parse advances the call counter by one, whether it
    has a title or not and whether it returns or raises, and changes
    nothing else (its type not being "source", which runs an accessor);
    a call whose arguments do not parse counts in neither pass.  So after
    the same calls the render pass's counter is the number of descriptors
    of the scan pass, if it was before. *)
Theorem passes_in_step (calls : list (list Value * list (string * Value))) : forall s r,
  (forall c, c ∈ calls ->
     match parse c.1 c.2 with
     | Ok a => RenderVM.render_type a <> Some "source"
     | Raise _ => True
     end) ->
  RenderVM.input_idx (ext r) = length (ext s) ->
  RenderVM.input_idx (ext (render_all conv accessor parse calls r)) =
    length (ext (scan_all parse calls s))
  /\ RenderVM.plots (ext (render_all conv accessor parse calls r)) = RenderVM.plots (ext r)
  /\ RenderVM.inputs (ext (render_all conv accessor parse calls r)) = RenderVM.inputs (ext r)
  /\ variable_tables (render_all conv accessor parse calls r) = variable_tables r.
Proof.
  induction calls as [| [args kwargs] calls IH]; intros s r Hcalls Hidx; [done |].
  simpl.
  pose proof (Hcalls (args, kwargs) (list_elem_of_here _ _)) as Hc. simpl in Hc.
  assert (Hrest : forall c, c ∈ calls ->
            match parse c.1 c.2 with
            | Ok a => RenderVM.render_type a <> Some "source"
            | Raise _ => True
            end).
  { intros c Hin. apply Hcalls. by apply list_elem_of_further. }
  destruct (parse args kwargs) as [a | e] eqn:Hp.
  - rewrite (render_input_state r args kwargs a Hp Hc).
    rewrite (scan_input_run parse s args kwargs a Hp). simpl.
    destruct (IH (set_ext (ext s ++ [InputScanner.descriptor (ext s) a]) s)
                (RenderVM.set_input_idx (RenderVM.input_idx (ext r) + 1) r) Hrest)
      as (H1 & H2 & H3 & H4).
    { simpl. rewrite length_app, Hidx. done. }
    done.
  - rewrite (render_input_parse_error r args kwargs e Hp).
    rewrite (scan_input_parse_error parse s args kwargs e Hp). simpl.
    by apply IH.
Qed.

(** X25: the input declared with a market series and no type goes round as a
    name: the scan pass records the series' [varname], and the render pass,
    given that name back, returns what [lookup_variable] finds under it on
    the machine it runs on (the series itself where the name is bound to
    it, the result of the accessor where it is bound to one). *)
Theorem source_round_trip s r args kwargs a varname samples :
  parse args kwargs = Ok a ->
  arg_typ a = None ->
  arg_defval a = VBuiltinSeries varname samples ->
  RenderVM.input_idx (ext r) = length (ext s) ->
  RenderVM.inputs (ext r) !! InputScanner.d_title (InputScanner.descriptor (ext s) a) =
    Some (InputScanner.d_defval (InputScanner.descriptor (ext s) a)) ->
  InputScanner.d_defval (InputScanner.descriptor (ext s) a) = VStr varname
  /\ RenderVM.input conv accessor parse args kwargs r =
       lookup_variable accessor varname
         (RenderVM.set_input_idx (RenderVM.input_idx (ext r) + 1) r)
  /\ (forall v, binding varname r = Some v -> isfunction v = false ->
        RenderVM.input conv accessor parse args kwargs r =
          (Ok v, RenderVM.set_input_idx (RenderVM.input_idx (ext r) + 1) r)).
Proof.
  intros Hp Htyp Hdef Hidx Hstored.
  assert (Hd : InputScanner.d_defval (InputScanner.descriptor (ext s) a) = VStr varname).
  { unfold InputScanner.descriptor. by rewrite Htyp, Hdef. }
  assert (Hrun : RenderVM.input conv accessor parse args kwargs r =
                 lookup_variable accessor varname
                   (RenderVM.set_input_idx (RenderVM.input_idx (ext r) + 1) r)).
  { rewrite (render_input_run conv accessor parse r args kwargs a Hp).
    rewrite titles_agree, <- Hidx in Hstored. rewrite Hstored, Hd.
    unfold RenderVM.render_type. rewrite Htyp, Hdef. done. }
  split; [done |]. split; [done |].
  intros v Hb Hv. rewrite Hrun, lookup_variable_binding.
  assert (Hb' : binding varname (RenderVM.set_input_idx (RenderVM.input_idx (ext r) + 1) r)
                = Some v) by done.
  rewrite Hb'. by destruct v.
Qed.

(** X26: an input of type "bool" is rendered by the truth value of what is
    stored for it: every non-empty string is true, "false" included, and
    the empty string, None and the integer 0 are false. *)
Theorem render_input_bool r args kwargs a val :
  parse args kwargs = Ok a ->
  arg_typ a = Some "bool" ->
  RenderVM.inputs (ext r) !! RenderVM.input_title (RenderVM.input_idx (ext r) + 1) a =
    Some val ->
  (forall str, val = VStr str ->
     RenderVM.input conv accessor parse args kwargs r =
       (Ok (VBool (negb (bool_decide (str = "")))),
        RenderVM.set_input_idx (RenderVM.input_idx (ext r) + 1) r))
  /\ (val = VNone ->
      RenderVM.input conv accessor parse args kwargs r =
        (Ok (VBool false), RenderVM.set_input_idx (RenderVM.input_idx (ext r) + 1) r))
  /\ (forall z, val = VInt z ->
        RenderVM.input conv accessor parse args kwargs r =
          (Ok (VBool (negb (z =? 0)%Z)),
           RenderVM.set_input_idx (RenderVM.input_idx (ext r) + 1) r)).
Proof.
  intros Hp Htyp Hstored.
  rewrite (render_input_run conv accessor parse r args kwargs a Hp), Hstored.
  unfold RenderVM.render_type. rewrite Htyp. simpl.
  split; [| split]; intros; subst val; done.
Qed.

(** X27: on a renderer fresh from [__init__] the names input, plot, hline and
    fill reach the renderer's own methods through [func_call], whatever
    the builtins had under these names; an argument error of such a call
    becomes the PineError that names the call and nothing is drawn, and a
    call that succeeds returns what the method returns. *)
Theorem render_init_dispatch (vm0 : VM Node Market unit) stored eval builtin args kwargs :
  (forall e, expand_plot args kwargs = Raise (PineArgumentError e) ->
     func_call eval
       (RenderVM.method_call conv styles accessor parse expand_plot expand_hline
          expand_fill builtin)
       "plot" args kwargs (RenderVM.init vm0 stored) =
     (Raise (PineError (ArgumentError e "plot")), RenderVM.init vm0 stored))
  /\ (forall e, expand_hline args kwargs = Raise (PineArgumentError e) ->
        func_call eval
          (RenderVM.method_call conv styles accessor parse expand_plot expand_hline
             expand_fill builtin)
          "hline" args kwargs (RenderVM.init vm0 stored) =
        (Raise (PineError (ArgumentError e "hline")), RenderVM.init vm0 stored))
  /\ (forall e, expand_fill args kwargs = Raise (PineArgumentError e) ->
        func_call eval
          (RenderVM.method_call conv styles accessor parse expand_plot expand_hline
             expand_fill builtin)
          "fill" args kwargs (RenderVM.init vm0 stored) =
        (Raise (PineError (ArgumentError e "fill")), RenderVM.init vm0 stored))
  /\ (forall e, parse args kwargs = Raise (PineArgumentError e) ->
        func_call eval
          (RenderVM.method_call conv styles accessor parse expand_plot expand_hline
             expand_fill builtin)
          "input" args kwargs (RenderVM.init vm0 stored) =
        (Raise (PineError (ArgumentError e "input")), RenderVM.init vm0 stored))
  /\ (forall v self',
        RenderVM.plot styles expand_plot args kwargs (RenderVM.init vm0 stored) =
          (Ok v, self') ->
        func_call eval
          (RenderVM.method_call conv styles accessor parse expand_plot expand_hline
             expand_fill builtin)
          "plot" args kwargs (RenderVM.init vm0 stored) = (Ok v, self')).
Proof.
  unfold func_call, RenderVM.method_call.
  repeat split.
  - intros e He. simpl. rewrite lookup_insert_ne by done.
    rewrite lookup_insert_ne by done. rewrite lookup_insert_eq.
    rewrite bool_decide_eq_false_2 by done. rewrite bool_decide_eq_true_2 by done.
    unfold RenderVM.plot. by rewrite He.
  - intros e He. simpl. rewrite lookup_insert_ne by done. rewrite lookup_insert_eq.
    rewrite !bool_decide_eq_false_2 by done. rewrite bool_decide_eq_true_2 by done.
    unfold RenderVM.hline. by rewrite He.
  - intros e He. simpl. rewrite lookup_insert_eq.
    rewrite !bool_decide_eq_false_2 by done. rewrite bool_decide_eq_true_2 by done.
    unfold RenderVM.fill. by rewrite He.
  - intros e He. simpl. rewrite !lookup_insert_ne by done. rewrite lookup_insert_eq.
    rewrite bool_decide_eq_true_2 by done.
    unfold RenderVM.input. by rewrite He.
  - intros v self' Hrun. simpl. rewrite lookup_insert_ne by done.
    rewrite lookup_insert_ne by done. rewrite lookup_insert_eq.
    rewrite bool_decide_eq_false_2 by done. rewrite bool_decide_eq_true_2 by done.
    by rewrite Hrun.
Qed.

End RenderInputFacts.

(** ** The scan pass, continued *)

Section ScanPassFacts.

Context {Node Market : Type}.
Variable parse : list Value -> list (string * Value) -> Result InputArgs.
Implicit Types (s : VM Node Market (list InputScanner.Descriptor)).
Implicit Types (args : list Value) (kwargs : list (string * Value)) (a : InputArgs).

(** X28: through any sequence of [input] calls the scan pass only appends to
    [self.inputs]: the descriptors already there stay in place and
    unchanged, every call whose arguments parse adds one and a call that
    raises adds none, whatever the calls before it did.  The descriptor
    that the k-th parsing call adds is the one [input] builds from its
    arguments when [self.inputs] holds the old descriptors and the k before
    it; one more call after the sequence appends its descriptor if it
    parses and leaves the machine as it is if it raises.  Neither the
    scopes nor the function table are touched. *)
Theorem scan_all_appends (calls : list (list Value * list (string * Value))) : forall s,
  (exists new,
    ext (scan_all parse calls s) = ext s ++ new
    /\ length new <= length calls
    /\ ((forall c, c ∈ calls -> exists a, parse c.1 c.2 = Ok a) ->
        length new = length calls)
    /\ variable_tables (scan_all parse calls s) = variable_tables s
    /\ function_table (scan_all parse calls s) = function_table s
    /\ length new = length (parsed_calls parse calls)
    /\ (forall k a,
          parsed_calls parse calls !! k = Some a ->
          new !! k = Some (InputScanner.descriptor (ext s ++ take k new) a)))
  /\ (forall c,
        scan_all parse (calls ++ [c]) s =
          match parse c.1 c.2 with
          | Ok a =>
              set_ext
                (ext (scan_all parse calls s) ++
                   [InputScanner.descriptor (ext (scan_all parse calls s)) a])
                (scan_all parse calls s)
          | Raise _ => scan_all parse calls s
          end).
Proof.
  intros s. split.
  - revert s. induction calls as [| [args kwargs] calls IH]; intros s.
    + exists []. rewrite app_nil_r. repeat split; try done.
    + simpl. unfold parsed_calls. simpl.
      destruct (parse args kwargs) as [a0 | e] eqn:Hp.
      * rewrite (scan_input_run parse s args kwargs a0 Hp). simpl.
        destruct (IH (set_ext (ext s ++ [InputScanner.descriptor (ext s) a0]) s))
          as (new & Hext & Hle & Hall & Hts & Hft & Hlen & Hnth).
        exists (InputScanner.descriptor (ext s) a0 :: new).
        split; [by rewrite Hext; simpl; rewrite <- app_assoc |].
        split; [simpl; lia |]. split; [| split; [done | split; [done | split]]].
        -- intros Hparse. simpl. rewrite Hall; [done |].
           intros c Hc. apply Hparse. by apply list_elem_of_further.
        -- simpl. by rewrite Hlen.
        -- intros [| k] a Hk; simpl in Hk.
           ++ inversion Hk; subst a. simpl. by rewrite app_nil_r.
           ++ simpl. rewrite (Hnth k a Hk). simpl. by rewrite <- app_assoc.
      * rewrite (scan_input_parse_error parse s args kwargs e Hp). simpl.
        destruct (IH s) as (new & Hext & Hle & Hall & Hts & Hft & Hlen & Hnth).
        exists new. split; [done |]. split; [lia |].
        split; [| split; [done | split; [done | split; [done | done]]]].
        intros Hparse.
        destruct (Hparse (args, kwargs) (list_elem_of_here _ _)) as [a Ha].
        simpl in Ha. rewrite Hp in Ha. discriminate.
  - intros [args kwargs]. unfold scan_all. rewrite fold_left_app. simpl.
    destruct (parse args kwargs) as [a | e] eqn:Hp.
    + by rewrite (scan_input_run parse _ args kwargs a Hp).
    + by rewrite (scan_input_parse_error parse _ args kwargs e Hp).
Qed.

(** X29: on a scanner fresh from [__init__] the name input reaches the
    scanner's own method through [func_call], whatever the builtins had
    under that name: an argument error becomes the PineError naming input
    and records nothing, a call that parses records the first descriptor.
    No other name is registered: a drawing call that the builtins do not
    provide is a function not found in the scan pass. *)
Theorem scanner_init_dispatch (vm0 : VM Node Market unit) eval builtin args kwargs :
  (forall e, parse args kwargs = Raise (PineArgumentError e) ->
     func_call eval (scanner_method_call parse builtin) "input" args kwargs
       (InputScanner.init vm0) =
     (Raise (PineError (ArgumentError e "input")), InputScanner.init vm0))
  /\ (forall a, parse args kwargs = Ok a ->
        func_call eval (scanner_method_call parse builtin) "input" args kwargs
          (InputScanner.init vm0) =
        (Ok (arg_defval a),
         set_ext [InputScanner.descriptor [] a] (InputScanner.init vm0)))
  /\ (forall name, name <> "input" ->
        function_table (InputScanner.init vm0) !! name = function_table vm0 !! name)
  /\ (forall name, name <> "input" -> function_table vm0 !! name = None ->
        func_call eval (scanner_method_call parse builtin) name args kwargs
          (InputScanner.init vm0) =
        (Raise (PineError (FunctionNotFound name)), InputScanner.init vm0)).
Proof.
  unfold func_call, scanner_method_call. repeat split.
  - intros e He. simpl. rewrite lookup_insert_eq.
    rewrite bool_decide_eq_true_2 by done. unfold InputScanner.input. by rewrite He.
  - intros a Ha. simpl. rewrite lookup_insert_eq.
    rewrite bool_decide_eq_true_2 by done. unfold InputScanner.input. by rewrite Ha.
  - intros name Hne. simpl. by rewrite lookup_insert_ne.
  - intros name Hne Hnone. simpl. rewrite lookup_insert_ne by done. by rewrite Hnone.
Qed.

End ScanPassFacts.

(** ** Sample runs *)

Lemma plot_color_witness :
  exists cmd,
    RenderVM.plot sample_styles expand_plot_args_model
      [VSeries [VFloat 1%float]; VStr "ma"; VSeries [VStr "red"; VStr "green"]] []
      (renderer0 ∅) =
    (Ok (VDict cmd), RenderVM.append_plot (VDict cmd) (renderer0 ∅))
    /\ dict_get "color" cmd = Some (VStr "green").
Proof.
  assert (Htr : forall z : Z, (None : option Z) = Some z -> (0 <= z <= 100)%Z)
    by (intros z Hz; discriminate Hz).
  apply (proj1 (plot_color sample_styles expand_plot_args_model (renderer0 ∅)
                  [VSeries [VFloat 1%float]; VStr "ma"; VSeries [VStr "red"; VStr "green"]]
                  [] _ eq_refl Htr)
           (VStr "green")).
  - discriminate.
  - reflexivity.
Defined.

Lemma plot_style_witness :
  dict_get "type"
    [("title", VStr "ma"); ("series", VSeries [VFloat 1%float]);
     ("mark", VStr "+"); ("type", VStr "marker")] = Some (VStr "marker")
  /\ (dict_get "mark"
        [("title", VStr "ma"); ("series", VSeries [VFloat 1%float]);
         ("mark", VStr "+"); ("type", VStr "marker")] = Some (VStr "+")
      \/ dict_get "mark"
           [("title", VStr "ma"); ("series", VSeries [VFloat 1%float]);
            ("mark", VStr "+"); ("type", VStr "marker")] = Some (VStr "o"))
  \/ (dict_get "type"
        [("title", VStr "ma"); ("series", VSeries [VFloat 1%float]);
         ("mark", VStr "+"); ("type", VStr "marker")] = Some (VStr "line")
      \/ dict_get "type"
           [("title", VStr "ma"); ("series", VSeries [VFloat 1%float]);
            ("mark", VStr "+"); ("type", VStr "marker")] = Some (VStr "bar")
      \/ dict_get "type"
           [("title", VStr "ma"); ("series", VSeries [VFloat 1%float]);
            ("mark", VStr "+"); ("type", VStr "marker")] = Some (VStr "band"))
     /\ dict_get "mark"
          [("title", VStr "ma"); ("series", VSeries [VFloat 1%float]);
           ("mark", VStr "+"); ("type", VStr "marker")] = None.
Proof.
  apply (proj2 (plot_style sample_styles
                  {| p_series := VSeries [VFloat 1%float]; p_title := "ma"; p_color := VNone;
                     p_linewidth := None; p_style := Some 4%Z; p_trackprice := None;
                     p_transp := None; p_histbase := None; p_offset := None;
                     p_join := None; p_editable := None; p_show_last := None |}
                  _ eq_refl) 4%Z eq_refl).
  discriminate.
Defined.

Lemma hline_command_spec_witness :
  exists cmd,
    RenderVM.hline expand_hline_args_model [VFloat 70%float] [("color", VStr "")]
      (renderer0 ∅) =
    (Ok (VDict cmd), RenderVM.append_plot (VDict cmd) (renderer0 ∅))
    /\ dict_get "type" cmd = Some (VStr "hline")
    /\ dict_get "series" cmd = Some (VFloat 70%float).
Proof.
  destruct (hline_command_spec expand_hline_args_model (renderer0 ∅)
              [VFloat 70%float] [("color", VStr "")] _ eq_refl)
    as (cmd & Hrun & Hty & Hser & _).
  exists cmd. split; [exact Hrun |]. split; [exact Hty | exact Hser].
Defined.

Lemma fill_series_keys_witness :
  RenderVM.fill expand_fill_args_model
    [VDict [("title", VStr "not a plot")];
     VDict [("title", VStr "ma"); ("series", VSeries [])]] [] (renderer0 ∅) =
  (Raise (KeyError "series"), renderer0 ∅).
Proof.
  apply (proj1 (fill_series_keys expand_fill_args_model (renderer0 ∅)
                  [VDict [("title", VStr "not a plot")];
                   VDict [("title", VStr "ma"); ("series", VSeries [])]] [] _ eq_refl)).
  left. reflexivity.
Defined.

Lemma plot_alpha_range_witness :
  exists cmd,
    RenderVM.plot sample_styles expand_plot_args_model
      [VSeries [VFloat 1%float]; VStr "ma"] [("transp", VInt 0)] (renderer0 ∅) =
    (Ok (VDict cmd), RenderVM.append_plot (VDict cmd) (renderer0 ∅))
    /\ dict_get "alpha" cmd = None.
Proof.
  destruct (plot_alpha_range sample_styles expand_plot_args_model (renderer0 ∅)
              [VSeries [VFloat 1%float]; VStr "ma"] [("transp", VInt 0)] _ VNone 0%Z
              eq_refl eq_refl eq_refl) as (cmd & Hrun & Hzero & _); [lia |].
  exists cmd. split; [exact Hrun | exact (Hzero eq_refl)].
Defined.

Lemma passes_in_step_witness :
  RenderVM.input_idx
    (ext (render_all no_conversions no_render_accessor parse_input_args_model
            [([VInt 5], [("title", VStr "length")]); ([VFloat 2.5%float], [])]
            (renderer0 ∅))) =
  length (ext (scan_all parse_input_args_model
                 [([VInt 5], [("title", VStr "length")]); ([VFloat 2.5%float], [])]
                 scanner0)).
Proof.
  apply (passes_in_step no_conversions no_render_accessor parse_input_args_model
           [([VInt 5], [("title", VStr "length")]); ([VFloat 2.5%float], [])]
           scanner0 (renderer0 ∅)).
  - intros c Hc.
    apply elem_of_cons in Hc as [-> | Hc]; [discriminate |].
    apply elem_of_cons in Hc as [-> | Hc]; [discriminate |].
    by apply elem_of_nil in Hc.
  - reflexivity.
Defined.

Lemma source_round_trip_witness :
  RenderVM.input no_conversions no_render_accessor parse_input_args_model
    [VBuiltinSeries "close" [VFloat 1%float]] []
    (RenderVM.init vm_source {[ "input1" := VStr "close" ]}) =
  (Ok (VBuiltinSeries "close" [VFloat 1%float]),
   RenderVM.set_input_idx 1 (RenderVM.init vm_source {[ "input1" := VStr "close" ]})).
Proof.
  apply (source_round_trip no_conversions no_render_accessor parse_input_args_model
           scanner0 (RenderVM.init vm_source {[ "input1" := VStr "close" ]})
           [VBuiltinSeries "close" [VFloat 1%float]] [] _ "close" [VFloat 1%float]
           eq_refl eq_refl eq_refl eq_refl).
  - reflexivity.
  - reflexivity.
  - reflexivity.
Defined.

Lemma render_input_bool_witness :
  RenderVM.input no_conversions no_render_accessor parse_input_args_model
    [VBool false] [("type", VStr "bool")] (renderer0 {[ "input1" := VStr "false" ]}) =
  (Ok (VBool true), RenderVM.set_input_idx 1 (renderer0 {[ "input1" := VStr "false" ]})).
Proof.
  assert (Hstored :
            RenderVM.inputs (ext (renderer0 {[ "input1" := VStr "false" ]})) !! "input1" =
            Some (VStr "false")) by reflexivity.
  apply (proj1 (render_input_bool no_conversions no_render_accessor parse_input_args_model
                  (renderer0 {[ "input1" := VStr "false" ]})
                  [VBool false] [("type", VStr "bool")] _ (VStr "false")
                  eq_refl eq_refl Hstored) "false" eq_refl).
Defined.
